(** * Plant monitor (code.py): the sample-convert-publish loop

    A shallow embedding of [code.py], the CircuitPython script that reads a
    light sensor and a soil sensor once per minute and publishes three
    converted values to Adafruit IO.

    - Python floats are IEEE-754 binary64 numbers: Rocq's primitive [float].
      Python integers are unbounded: [Z]. Converting an integer that is
      beyond the range of the floats raises an [OverflowError], as does
      dividing two integers whose quotient is.
    - The vendor drivers (clock, sensors, MQTT client, WiFi manager) are not
      part of the script; they are a record of functions over an abstract
      world [W], each returning either a value or a raised exception.
    - The script is written in a small monad that threads the world and
      records every call to a driver, with its outcome, in a trace. *)

From Stdlib Require Import ZArith List Floats Lia.
From stdpp Require Import gmap strings.

Set Warnings "-inexact-float".
Set Default Proof Using "Type".

Open Scope Z_scope.

(** ** Python exceptions *)

Inductive exn_class :=
| OSError
| ConnectionError
| TimeoutError
| RuntimeError
| ValueError
| TypeError
| KeyError
| ZeroDivisionError
| OverflowError
| MemoryError
| MMQTTException
| AdafruitIO_MQTTError.

Record exn := Exn { exn_cls : exn_class; exn_msg : string }.

(** [issubclass(c, OSError)]: what the clause [except OSError] catches. *)
Definition is_OSError_class (c : exn_class) : bool :=
  match c with
  | OSError | ConnectionError | TimeoutError => true
  | _ => false
  end.

Definition is_OSError (e : exn) : bool := is_OSError_class (exn_cls e).

(** [str(e)], as interpolated by the f-string of the handler. *)
Definition py_str_exn (e : exn) : string := exn_msg e.

(** A Python expression either yields a value or raises. *)
Definition py (A : Type) : Type := result A exn.

Definition py_ret {A} (a : A) : py A := Ok a.

Definition py_raise {A} (c : exn_class) (msg : string) : py A :=
  Error (Exn c msg).

Definition py_bind {A B} (k : A → py B) (m : py A) : py B :=
  match m with
  | Ok a => k a
  | Error e => Error e
  end.

#[global] Instance py_mret : MRet py := @py_ret.
#[global] Instance py_mbind : MBind py := @py_bind.

(** ** Python values and the arithmetic the script uses *)

Inductive pyval :=
| PyNone
| PyInt (z : Z)
| PyFloat (f : float)
| PyStr (s : string).

(** The binary64 number nearest to an integer, an infinity when the integer
    is beyond the range of the floats; exact when [|z| <= 2^53]. *)
Definition float_of_int (z : Z) : float :=
  SF2Prim (binary_normalize prec emax z 0 false).

(** [float(z)], the conversion applied to an [int] operand of a [float]
    operation: it raises when the integer is beyond the range of the
    floats. *)
Definition int_to_float (z : Z) : py float :=
  match binary_normalize prec emax z 0 false with
  | S754_infinity _ =>
      py_raise OverflowError "int too large to convert to float"
  | x => Ok (SF2Prim x)
  end.

(** An [int] of at most 53 bits: a float holds it exactly. *)
Definition int_small (z : Z) : bool := (Z.abs z <? 2 ^ 53)%Z.

(** The exact quotient of two integers, rounded once to nearest even: the
    rounding of [SFdiv], applied to the integers themselves. *)
Definition int_quotient (x y : Z) : spec_float :=
  let '(q, e, l) := SFdiv_core_binary prec emax (Z.abs x) 0 (Z.abs y) 0 in
  binary_round_aux prec emax (xorb (x <? 0)%Z (y <? 0)%Z) q e l.

Fixpoint str_repeat (n : nat) (s : string) : string :=
  match n with
  | O => EmptyString
  | S n' => s +:+ str_repeat n' s
  end.

(** [a * b] *)
Definition py_mul (a b : pyval) : py pyval :=
  match a, b with
  | PyInt x, PyInt y => Ok (PyInt (x * y))
  | PyInt x, PyFloat y => fx ← int_to_float x; Ok (PyFloat (fx * y))
  | PyFloat x, PyInt y => fy ← int_to_float y; Ok (PyFloat (x * fy))
  | PyFloat x, PyFloat y => Ok (PyFloat (x * y))
  | PyStr s, PyInt n | PyInt n, PyStr s => Ok (PyStr (str_repeat (Z.to_nat n) s))
  | _, _ => py_raise TypeError "unsupported types for __mul__"
  end.

(** [a + b] *)
Definition py_add (a b : pyval) : py pyval :=
  match a, b with
  | PyInt x, PyInt y => Ok (PyInt (x + y))
  | PyInt x, PyFloat y => fx ← int_to_float x; Ok (PyFloat (fx + y))
  | PyFloat x, PyInt y => fy ← int_to_float y; Ok (PyFloat (x + fy))
  | PyFloat x, PyFloat y => Ok (PyFloat (x + y))
  | PyStr s, PyStr t => Ok (PyStr (s +:+ t))
  | _, _ => py_raise TypeError "unsupported types for __add__"
  end.

(** [x / y] on floats: a zero divisor raises. *)
Definition float_truediv (x y : float) : py pyval :=
  if (y =? 0)%float then py_raise ZeroDivisionError "division by zero"
  else Ok (PyFloat (x / y)).

(** [x / y] on two [int]s: operands of at most 53 bits are divided as
    floats; otherwise the exact quotient is rounded once, and a quotient
    beyond the range of the floats raises. *)
Definition int_truediv (x y : Z) : py pyval :=
  if (y =? 0)%Z then py_raise ZeroDivisionError "division by zero"
  else if int_small x && int_small y then
    Ok (PyFloat (float_of_int x / float_of_int y))
  else
    match int_quotient x y with
    | S754_infinity _ =>
        py_raise OverflowError "integer division result too large for a float"
    | q => Ok (PyFloat (SF2Prim q))
    end.

(** [a / b]: true division; an [int] operand of a [float] is converted
    first. *)
Definition py_truediv (a b : pyval) : py pyval :=
  match a, b with
  | PyInt x, PyInt y => int_truediv x y
  | PyInt x, PyFloat y => fx ← int_to_float x; float_truediv fx y
  | PyFloat x, PyInt y => fy ← int_to_float y; float_truediv x fy
  | PyFloat x, PyFloat y => float_truediv x y
  | _, _ => py_raise TypeError "unsupported types for __truediv__"
  end.

(** [d[key]] on a dictionary with string keys. *)
Definition py_getitem (d : gmap string pyval) (key : string) : py pyval :=
  match d !! key with
  | Some x => Ok x
  | None => py_raise KeyError key
  end.

(** ** The unit converters (lines 62-69) *)

(** [def cel_to_fahr(celsius): return celsius * 1.80 + 32] *)
Definition cel_to_fahr (celsius : pyval) : py pyval :=
  t ← py_mul celsius (PyFloat 1.80); py_add t (PyInt 32).

(** [def lux_to_footcandle(lux): return lux / 10.764] *)
Definition lux_to_footcandle (lux : pyval) : py pyval :=
  py_truediv lux (PyFloat 10.764).

(** The moisture scaling, written inline at line 205:
    [soil_sensor.moisture_read()/20]. *)
Definition moisture_to_scale (raw : pyval) : py pyval :=
  py_truediv raw (PyInt 20).

(** ** Calls to the vendor drivers, as recorded in the trace *)

Inductive event :=
| Print (s : string)
| SetupDevices (r : py ())
| WifiConnect (r : py ())
| IoConnect (r : py ())
| Monotonic (t : float)
| Lux (r : py float)
| MoistureRead (r : py Z)
| GetTemp (r : py float)
| Publish (feed : string) (value : pyval) (r : py ())
| WifiReset (r : py ())
| MqttSetSocket (r : py ())
| MqttClient (username password : pyval) (r : py ())
| IoMqtt (r : py ()).

(** The drivers the script calls into. Each may change the world; all but
    the clock may raise. *)
Record drivers (W : Type) := Drivers {
  (** lines 54-131: sensor, display and radio objects, [secrets] import *)
  setup_devices : W → py () * W;
  (** the dictionary [secrets] of [secrets.py] *)
  secrets : gmap string pyval;
  (** [wifi.connect()] *)
  wifi_connect : W → py () * W;
  (** [MQTT.set_socket(socket, esp)] *)
  mqtt_set_socket : W → py () * W;
  (** [MQTT.MQTT(broker=..., port=1883, username=..., password=...)] *)
  mqtt_client : pyval → pyval → W → py () * W;
  (** [IO_MQTT(mqtt_client)] *)
  io_mqtt : W → py () * W;
  (** [io.connect()] *)
  io_connect : W → py () * W;
  (** [time.monotonic()] *)
  time_monotonic : W → float * W;
  (** [light_sensor.lux] *)
  light_sensor_lux : W → py float * W;
  (** [soil_sensor.moisture_read()] *)
  soil_sensor_moisture_read : W → py Z * W;
  (** [soil_sensor.get_temp()] *)
  soil_sensor_get_temp : W → py float * W;
  (** [io.publish(feed, value)] *)
  io_publish : string → pyval → W → py () * W;
  (** [wifi.reset()] *)
  wifi_reset : W → py () * W
}.

Arguments Drivers {W}.
Arguments setup_devices {W}.
Arguments secrets {W}.
Arguments mqtt_set_socket {W}.
Arguments mqtt_client {W}.
Arguments io_mqtt {W}.
Arguments wifi_connect {W}.
Arguments io_connect {W}.
Arguments time_monotonic {W}.
Arguments light_sensor_lux {W}.
Arguments soil_sensor_moisture_read {W}.
Arguments soil_sensor_get_temp {W}.
Arguments io_publish {W}.
Arguments wifi_reset {W}.

(** ** The monad of the script: world passing, exceptions, trace *)

Record out (W A : Type) := Out {
  res : py A;
  world : W;
  events : list event
}.

Arguments Out {W A}.
Arguments res {W A}.
Arguments world {W A}.
Arguments events {W A}.

Definition M (W A : Type) : Type := W → out W A.

Definition m_ret {W A} (a : A) : M W A := λ w, Out (Ok a) w [].

Definition m_bind {W A B} (k : A → M W B) (m : M W A) : M W B := λ w,
  match m w with
  | Out (Ok a) w' evs =>
      match k a w' with
      | Out r w'' evs' => Out r w'' (evs ++ evs')
      end
  | Out (Error e) w' evs => Out (Error e) w' evs
  end.

#[global] Instance m_mret {W} : MRet (M W) := @m_ret W.
#[global] Instance m_mbind {W} : MBind (M W) := @m_bind W.

(** A pure Python expression evaluated inside the script. *)
Definition lift {W A} (x : py A) : M W A := λ w, Out x w [].

(** A driver call, recorded with its outcome. *)
Definition call {W A} (f : W → py A * W) (ev : py A → event) : M W A := λ w,
  let '(r, w') := f w in Out r w' [ev r].

(** [print(s)] *)
Definition print {W} (s : string) : M W () := λ w, Out (Ok ()) w [Print s].

(** [try: body  except <catches> as e: handler e] *)
Definition try_except {W A} (body : M W A) (catches : exn → bool)
    (handler : exn → M W A) : M W A := λ w,
  match body w with
  | Out (Ok a) w' evs => Out (Ok a) w' evs
  | Out (Error e) w' evs =>
      if catches e then
        match handler e w' with
        | Out r w'' evs' => Out r w'' (evs ++ evs')
        end
      else Out (Error e) w' evs
  end.

(** ** Module-level variables of the script (lines 193-197) *)

Definition nl : string := String (Ascii.ascii_of_nat 10) EmptyString.

Definition measurements : list string := ["Sunlight"; "Moisture"; "Temperature"].

Definition measurement_units : gmap string string :=
  <["temperature" := "ºF"]> (<["moisture" := "Humidity"]>
    (<["sunlight" := "Ft-Candles"]> ∅)).

Record vars := Vars {
  last_updated : float;
  plant_measurements : gmap string pyval
}.

Definition plant_measurements_init : gmap string pyval :=
  <["temperature" := PyFloat 0.0]> (<["moisture" := PyFloat 0.0]>
    (<["sunlight" := PyFloat 0.0]> ∅)).

(** How the [try] statement of the loop body ends: by falling through to
    line 225, or by the [continue] of the handler. *)
Inductive flow := Fallthrough | Continue.

Section Script.
Context {W : Type} (drv : drivers W).

Definition monotonic : M W float := λ w,
  let '(t, w') := time_monotonic drv w in Out (Ok t) w' [Monotonic t].

Definition publish (feed : string) (value : pyval) : M W () :=
  call (io_publish drv feed value) (Publish feed value).

(** Lines 54-197: set-up, connection, initial values. The two lookups in
    [secrets] are the arguments of the [MQTT.MQTT] call, evaluated in
    order before it; lines 183-187 store the five callbacks in attributes
    of [io] and call nothing. *)
Definition startup : M W vars :=
  call (setup_devices drv) SetupDevices;;
  print "Connecting to WiFi...";;
  call (wifi_connect drv) WifiConnect;;
  print "Connected!";;
  call (mqtt_set_socket drv) MqttSetSocket;;
  username ← lift (py_getitem (secrets drv) "aio_username");
  password ← lift (py_getitem (secrets drv) "aio_key");
  call (mqtt_client drv username password) (MqttClient username password);;
  call (io_mqtt drv) IoMqtt;;
  print "Connecting to Adafruit IO...";;
  call (io_connect drv) IoConnect;;
  t ← monotonic;
  mret (Vars (t - 60)%float plant_measurements_init).

(** Lines 203-206: take the three measurements. *)
Definition take_measurements (pm : gmap string pyval) : M W (gmap string pyval) :=
  print (nl +:+ "Taking measurements...");;
  lux ← call (light_sensor_lux drv) Lux;
  sun ← lift (lux_to_footcandle (PyFloat lux));
  let pm := <["sunlight" := sun]> pm in
  raw ← call (soil_sensor_moisture_read drv) MoistureRead;
  moist ← lift (moisture_to_scale (PyInt raw));
  let pm := <["moisture" := moist]> pm in
  c ← call (soil_sensor_get_temp drv) GetTemp;
  fahr ← lift (cel_to_fahr (PyFloat c));
  mret (<["temperature" := fahr]> pm).

(** Lines 214-218: the body of the [try]. *)
Definition send_measurements (pm : gmap string pyval) : M W flow :=
  print (nl +:+ "Sending data...");;
  sun ← lift (py_getitem pm "sunlight");
  publish "sun" sun;;
  moist ← lift (py_getitem pm "moisture");
  publish "spruce.moisture" moist;;
  fahr ← lift (py_getitem pm "temperature");
  publish "spruce.temperature" fahr;;
  print "Measurement data sent!";;
  mret Fallthrough.

(** Lines 220-223: the handler of [except OSError as e]. *)
Definition on_OSError (e : exn) : M W flow :=
  print ("Failed to get/post data, retrying..." +:+ nl +:+ " " +:+ py_str_exn e);;
  call (wifi_reset drv) WifiReset;;
  mret Continue.

(** Lines 200-225: one iteration of [while True]. *)
Definition loop_body (v : vars) : M W vars :=
  now ← monotonic;
  if (60 <=? now - last_updated v)%float then
    pm ← take_measurements (plant_measurements v);
    fl ← try_except (send_measurements pm) is_OSError on_OSError;
    match fl with
    | Continue => mret (Vars (last_updated v) pm)
    | Fallthrough => t ← monotonic; mret (Vars t pm)
    end
  else mret v.

(** The first [n] iterations of [while True]. The loop has no exit: it ends
    only by an exception that nothing catches. *)
Fixpoint run_loop (n : nat) (v : vars) : M W vars :=
  match n with
  | O => mret v
  | S n' => v' ← loop_body v; run_loop n' v'
  end.

(** The script, observed for [n] iterations of its loop. *)
Definition main (n : nat) : M W vars :=
  v ← startup; run_loop n v.

End Script.

(** ** A scripted world, to run the script on concrete inputs

    The world is the list of answers each driver will give, in order. A
    driver whose list is exhausted answers with a fixed default. *)

Record script := Script {
  clock_s : list float;
  lux_s : list (py float);
  moisture_s : list (py Z);
  temp_s : list (py float);
  publish_s : list (py ());
  reset_s : list (py ())
}.

Definition next {A} (d : A) (l : list A) : A * list A :=
  match l with
  | [] => (d, [])
  | x :: l' => (x, l')
  end.

Definition scripted : drivers script := {|
  setup_devices w := (Ok (), w);
  secrets :=
    <["aio_key" := PyStr "aio_0123456789abcdef"]>
      (<["aio_username" := PyStr "gardener"]> ∅);
  wifi_connect w := (Ok (), w);
  mqtt_set_socket w := (Ok (), w);
  mqtt_client _ _ w := (Ok (), w);
  io_mqtt w := (Ok (), w);
  io_connect w := (Ok (), w);
  time_monotonic w :=
    let '(t, l) := next 0%float (clock_s w) in
    (t, Script l (lux_s w) (moisture_s w) (temp_s w) (publish_s w) (reset_s w));
  light_sensor_lux w :=
    let '(r, l) := next (Ok 0%float) (lux_s w) in
    (r, Script (clock_s w) l (moisture_s w) (temp_s w) (publish_s w) (reset_s w));
  soil_sensor_moisture_read w :=
    let '(r, l) := next (Ok 0) (moisture_s w) in
    (r, Script (clock_s w) (lux_s w) l (temp_s w) (publish_s w) (reset_s w));
  soil_sensor_get_temp w :=
    let '(r, l) := next (Ok 0%float) (temp_s w) in
    (r, Script (clock_s w) (lux_s w) (moisture_s w) l (publish_s w) (reset_s w));
  io_publish _ _ w :=
    let '(r, l) := next (Ok ()) (publish_s w) in
    (r, Script (clock_s w) (lux_s w) (moisture_s w) (temp_s w) l (reset_s w));
  wifi_reset w :=
    let '(r, l) := next (Ok ()) (reset_s w) in
    (r, Script (clock_s w) (lux_s w) (moisture_s w) (temp_s w) (publish_s w) l)
|}.

(** ** Reading a trace *)

(** The feed and value of every [io.publish] call, in order. *)
Fixpoint publishes (evs : list event) : list (string * pyval) :=
  match evs with
  | [] => []
  | Publish feed value _ :: evs' => (feed, value) :: publishes evs'
  | _ :: evs' => publishes evs'
  end.

(** The number of [wifi.reset()] calls. *)
Fixpoint resets (evs : list event) : nat :=
  match evs with
  | [] => O
  | WifiReset _ :: evs' => S (resets evs')
  | _ :: evs' => resets evs'
  end.

(** The number of [io.connect()] calls. *)
Fixpoint connects (evs : list event) : nat :=
  match evs with
  | [] => O
  | IoConnect _ :: evs' => S (connects evs')
  | _ :: evs' => connects evs'
  end.

(** Some sensor was read. *)
Definition is_sensor_read (ev : event) : bool :=
  match ev with
  | Lux _ | MoistureRead _ | GetTemp _ => true
  | _ => false
  end.

(** ** The shapes one iteration of the loop can take

    What is published, and each way an iteration can end, stated once so
    that the properties below can be read off by case analysis. *)

Definition sun_of (l : float) : pyval := PyFloat (l / 10.764).
(** The scaled moisture of a raw reading, when the division returns. *)
Definition moist_of (r : Z) : pyval :=
  match moisture_to_scale (PyInt r) with
  | Ok x => x
  | Error _ => PyFloat nan
  end.
Definition fahr_of (c : float) : pyval := PyFloat (c * 1.80 + 32).

Definition measured (pm : gmap string pyval) (l : float) (r : Z) (c : float)
    : gmap string pyval :=
  <["temperature" := fahr_of c]> (<["moisture" := moist_of r]>
    (<["sunlight" := sun_of l]> pm)).

Definition feeds (l : float) (r : Z) (c : float) : list (string * pyval) :=
  [("sun", sun_of l); ("spruce.moisture", moist_of r);
   ("spruce.temperature", fahr_of c)].

Definition msg_taking : string := nl +:+ "Taking measurements...".
Definition msg_sending : string := nl +:+ "Sending data...".
Definition msg_sent : string := "Measurement data sent!".
Definition msg_failed (e : exn) : string :=
  "Failed to get/post data, retrying..." +:+ nl +:+ " " +:+ py_str_exn e.

Definition sampling (l : float) (r : Z) (c : float) : list event :=
  [Print msg_taking; Lux (Ok l); MoistureRead (Ok r); GetTemp (Ok c)].

Definition published (fs : list (string * pyval)) : list event :=
  map (λ fx, Publish fx.1 fx.2 (Ok ())) fs.

(** The interval test of line 201. *)
Definition due (now : float) (v : vars) : bool :=
  (60 <=? now - last_updated v)%float.

Variant iteration {W : Type} (v : vars) : out W vars → Prop :=
| it_idle t w :
    due t v = false →
    iteration v (Out (Ok v) w [Monotonic t])
| it_lux_fails t e w :
    due t v = true →
    iteration v (Out (Error e) w [Monotonic t; Print msg_taking; Lux (Error e)])
| it_moisture_fails t l e w :
    due t v = true →
    iteration v (Out (Error e) w
      [Monotonic t; Print msg_taking; Lux (Ok l); MoistureRead (Error e)])
| it_moisture_overflow t l r e w :
    due t v = true →
    moisture_to_scale (PyInt r) = Error e →
    iteration v (Out (Error e) w
      [Monotonic t; Print msg_taking; Lux (Ok l); MoistureRead (Ok r)])
| it_temp_fails t l r e w :
    due t v = true →
    moisture_to_scale (PyInt r) = Ok (moist_of r) →
    iteration v (Out (Error e) w
      [Monotonic t; Print msg_taking; Lux (Ok l); MoistureRead (Ok r);
       GetTemp (Error e)])
| it_sent t l r c t' w :
    due t v = true →
    moisture_to_scale (PyInt r) = Ok (moist_of r) →
    iteration v (Out (Ok (Vars t' (measured (plant_measurements v) l r c))) w
      (Monotonic t :: sampling l r c ++ Print msg_sending ::
       published (feeds l r c) ++ [Print msg_sent; Monotonic t']))
| it_caught t l r c n f x e rr w :
    due t v = true →
    moisture_to_scale (PyInt r) = Ok (moist_of r) →
    feeds l r c !! n = Some (f, x) →
    is_OSError e = true →
    iteration v
      (Out (match rr with
            | Ok _ => Ok (Vars (last_updated v)
                               (measured (plant_measurements v) l r c))
            | Error e' => Error e'
            end) w
        (Monotonic t :: sampling l r c ++ Print msg_sending ::
         published (take n (feeds l r c)) ++
         [Publish f x (Error e); Print (msg_failed e); WifiReset rr]))
| it_uncaught t l r c n f x e w :
    due t v = true →
    moisture_to_scale (PyInt r) = Ok (moist_of r) →
    feeds l r c !! n = Some (f, x) →
    is_OSError e = false →
    iteration v (Out (Error e) w
      (Monotonic t :: sampling l r c ++ Print msg_sending ::
       published (take n (feeds l r c)) ++ [Publish f x (Error e)])).

(** ** Scenarios for the scripted world *)

Definition transport_error : exn := Exn OSError "[Errno 116] ETIMEDOUT".
Definition broker_error : exn := Exn MMQTTException "MiniMQTT is not connected".
Definition sensor_error : exn := Exn RuntimeError "Could not get a valid moisture reading.".

(** [last_updated] is 1000; the clock reads 1060 at the test of line 201 and
    1063 at line 225; the sensors read 500 lux, 1000 raw, 22 degrees. *)
Definition v_1000 : vars := Vars 1000 plant_measurements_init.

Definition readings (clock : list float) (pubs : list (py ())) : script :=
  Script clock [Ok 500%float] [Ok 1000] [Ok 22%float] pubs [].

Definition w_all_sent : script := readings [1060; 1063]%float [].

(** The second publish raises an [OSError]. *)
Definition w_moisture_unsent : script :=
  readings [1060; 1063]%float [Ok (); Error transport_error].

(** The second publish raises an exception that is not an [OSError]. *)
Definition w_broker_down : script :=
  readings [1060; 1063]%float [Ok (); Error broker_error].

(** The moisture sensor raises. *)
Definition w_sensor_down : script :=
  Script [1060]%float [Ok 500%float] [Error sensor_error] [] [] [].

(** The clock reads [t0] at line 197 and [t1] at the first poll. *)
Definition w_boot (t0 t1 : float) : script :=
  Script [t0; t1; t1] [Ok 500%float] [Ok 1000] [Ok 22%float] [] [].

(** ** Further readings of a trace and of the dictionary *)

(** The exception a driver call ended with, if the event records one. *)
Definition raised (ev : event) : option exn :=
  match ev with
  | SetupDevices (Error e) | WifiConnect (Error e) | IoConnect (Error e)
  | MqttSetSocket (Error e) | MqttClient _ _ (Error e) | IoMqtt (Error e)
  | Lux (Error e) | MoistureRead (Error e) | GetTemp (Error e)
  | Publish _ _ (Error e) | WifiReset (Error e) => Some e
  | _ => None
  end.

(** The events of a poll, after its clock reading, when the cycle runs: the
    three measurements are taken in order, up to the first read that
    raises or a reading too large to scale, and after them the publishes
    are attempted, beginning with [sun]. *)
Definition runs_cycle (evs : list event) : Prop :=
  (∃ e, evs = [Print msg_taking; Lux (Error e)])
  ∨ (∃ l e, evs = [Print msg_taking; Lux (Ok l); MoistureRead (Error e)])
  ∨ (∃ l r e, evs = [Print msg_taking; Lux (Ok l); MoistureRead (Ok r)]
              ∧ moisture_to_scale (PyInt r) = Error e)
  ∨ (∃ l r e, evs = [Print msg_taking; Lux (Ok l); MoistureRead (Ok r);
                     GetTemp (Error e)])
  ∨ (∃ l r c o evs',
       evs = sampling l r c ++
             Print msg_sending :: Publish "sun" (sun_of l) o :: evs').

(** The events of a cycle in which nothing fails, after the clock reading
    of the interval test: three readings, three publishes, and the clock
    reading [t'] of line 225. *)
Definition full_cycle (l : float) (r : Z) (c : float) (t' : float)
    : list event :=
  sampling l r c ++ Print msg_sending :: published (feeds l r c) ++
  [Print msg_sent; Monotonic t'].

(** The events of the start-up up to ["Connected!"]. *)
Definition wifi_up : list event :=
  [SetupDevices (Ok ()); Print "Connecting to WiFi..."; WifiConnect (Ok ());
   Print "Connected!"].

(** The number of [time.monotonic()] calls. *)
Fixpoint clock_reads (evs : list event) : nat :=
  match evs with
  | [] => O
  | Monotonic _ :: evs' => S (clock_reads evs')
  | _ :: evs' => clock_reads evs'
  end.

Definition is_float (x : pyval) : bool :=
  match x with
  | PyFloat _ => true
  | _ => false
  end.

(** The keys of [plant_measurements] (line 195). *)
Definition measurement_keys : gset string :=
  {["sunlight"; "moisture"; "temperature"]}.

(** Exactly the three keys, each holding a float. *)
Definition three_floats (pm : gmap string pyval) : Prop :=
  dom pm = measurement_keys ∧ map_Forall (λ _ x, is_float x = true) pm.

(** A world in which [wifi.connect()] raises. *)
Definition no_wifi : drivers script := {|
  setup_devices := setup_devices scripted;
  secrets := secrets scripted;
  wifi_connect w := (Error transport_error, w);
  mqtt_set_socket := mqtt_set_socket scripted;
  mqtt_client := mqtt_client scripted;
  io_mqtt := io_mqtt scripted;
  io_connect := io_connect scripted;
  time_monotonic := time_monotonic scripted;
  light_sensor_lux := light_sensor_lux scripted;
  soil_sensor_moisture_read := soil_sensor_moisture_read scripted;
  soil_sensor_get_temp := soil_sensor_get_temp scripted;
  io_publish := io_publish scripted;
  wifi_reset := wifi_reset scripted
|}.

(** A world whose [secrets.py] lacks the entry ["aio_key"]. *)
Definition no_key : drivers script := {|
  setup_devices := setup_devices scripted;
  secrets := <["aio_username" := PyStr "gardener"]> ∅;
  wifi_connect := wifi_connect scripted;
  mqtt_set_socket := mqtt_set_socket scripted;
  mqtt_client := mqtt_client scripted;
  io_mqtt := io_mqtt scripted;
  io_connect := io_connect scripted;
  time_monotonic := time_monotonic scripted;
  light_sensor_lux := light_sensor_lux scripted;
  soil_sensor_moisture_read := soil_sensor_moisture_read scripted;
  soil_sensor_get_temp := soil_sensor_get_temp scripted;
  io_publish := io_publish scripted;
  wifi_reset := wifi_reset scripted
|}.

(** The first publish raises an [OSError], and so does the reset. *)
Definition w_reset_fails : script :=
  Script [1060; 1063]%float [Ok 500%float] [Ok 1000] [Ok 22%float]
    [Error transport_error] [Error transport_error].

(** After the start-up the moisture sensor raises in the first cycle. *)
Definition w_boot_sensor_down : script :=
  Script [0.5; 0.5]%float [Ok 500%float] [Error sensor_error] [] [] [].

(** ** Binary64 numbers as integers

    A finite binary64 number is a multiple of [2 ^ -1074]: its value is
    counted in that unit. *)
Definition units (m e : Z) : Z := m * 2 ^ (e + 1074).

(** The spacing of the binary64 numbers around [n] units. *)
Definition grid (n : Z) : Z := 2 ^ Z.max 0 (Z.log2 n - 52).

(** [v] is [n] rounded to nearest, ties to even. *)
Definition rounds (n v : Z) : Prop :=
  exists j, v = j * grid n
    /\ 2 * Z.abs (n - v) <= grid n
    /\ (2 * Z.abs (n - v) = grid n -> Z.even j = true).

(** The value of a finite number, in units; [0] for the others. *)
Definition SF2Z (x : spec_float) : Z :=
  match x with
  | S754_finite s m e => if s then - units (Z.pos m) e else units (Z.pos m) e
  | _ => 0
  end.

(** Neither an infinity nor a NaN. *)
Definition SFfinite (x : spec_float) : bool :=
  match x with
  | S754_finite _ _ _ | S754_zero _ => true
  | _ => false
  end.

(** The number 60, as [Prim2SF] gives it. *)
Definition SF60 : spec_float := S754_finite false 8444249301319680 (-47).

(** 60 s less half the spacing of the binary64 numbers below 64 s: the
    least exact difference that rounds to 60 s or more. *)
Definition due_units : Z := 60 * 2 ^ 1074 - 2 ^ 1026.

(** What [n] right shifts leave of [m]: the quotient, and where the
    remainder lies with respect to half of [2 ^ n]. *)
Definition shr_inv (m n : Z) (mrs : shr_record) : Prop :=
  0 <= shr_m mrs /\
  0 <= m - 2 ^ n * shr_m mrs < 2 ^ n /\
  match shr_r mrs, shr_s mrs with
  | false, false => m - 2 ^ n * shr_m mrs = 0
  | false, true => 0 < 2 * (m - 2 ^ n * shr_m mrs) < 2 ^ n
  | true, false => 2 * (m - 2 ^ n * shr_m mrs) = 2 ^ n
  | true, true => 2 ^ n < 2 * (m - 2 ^ n * shr_m mrs)
  end.

(** The poll reads the clock value that [v_1000] has recorded. *)
Definition w_same_tick : script := Script [1000]%float [] [] [] [] [].

(** The poll after a failed cycle: the clock has moved on by a second. *)
Definition w_retry : script :=
  Script [1061; 1064]%float [Ok 510%float] [Ok 1001] [Ok 22.5%float] [] [].

(** [p] holds of the [n] integers from [r] on. *)
Fixpoint all_from (n : nat) (r : Z) (p : Z → bool) : bool :=
  match n with
  | O => true
  | S n' => p r && all_from n' (r + 1) p
  end.

(** The scaled moisture lies between 10 and 100. *)
Definition scaled_in_range (r : Z) : bool :=
  match moist_of r with
  | PyFloat x => (10 <=? x)%float && (x <=? 100)%float
  | _ => false
  end.

(** The next raw reading scales to a larger value. *)
Definition scaled_increases (r : Z) : bool :=
  match moist_of r, moist_of (r + 1) with
  | PyFloat x, PyFloat y => (x <? y)%float
  | _, _ => false
  end.

(** The number of publishes that raised an [OSError]. *)
Fixpoint oserror_publishes (evs : list event) : nat :=
  match evs with
  | [] => O
  | Publish _ _ (Error e) :: evs' =>
      ((if is_OSError e then 1 else 0) + oserror_publishes evs')%nat
  | _ :: evs' => oserror_publishes evs'
  end.

(** An [int] or a [float]. *)
Definition is_number (x : pyval) : bool :=
  match x with
  | PyInt _ | PyFloat _ => true
  | _ => false
  end.

(** The state and the world after the start-up on [w_boot 0.5 0.75]. *)
Definition v_boot : vars := Vars (0.5 - 60)%float plant_measurements_init.

Definition w_first_poll : script := world (startup scripted (w_boot 0.5 0.75)).

(** * Properties *)

(** ** The converters on the values the sensors deliver *)

Lemma float_of_int_20 : float_of_int 20 = 20%float.
Proof. vm_compute. reflexivity. Qed.

Lemma int_to_float_32 : int_to_float 32 = Ok 32%float.
Proof. vm_compute. reflexivity. Qed.

Lemma cel_to_fahr_float c : cel_to_fahr (PyFloat c) = Ok (fahr_of c).
Proof.
  unfold cel_to_fahr, fahr_of, py_mul.
  cbn [mbind py_mbind py_bind py_add]. rewrite int_to_float_32. reflexivity.
Qed.

Lemma lux_to_footcandle_float l : lux_to_footcandle (PyFloat l) = Ok (sun_of l).
Proof. reflexivity. Qed.

(** Dividing a reading by 20 returns a float, or raises an [OverflowError]
    when the reading has more than 53 bits and the quotient is beyond the
    range of the floats. *)
Lemma moisture_to_scale_cases r :
  moisture_to_scale (PyInt r) = Ok (moist_of r)
  ∨ ∃ msg, moisture_to_scale (PyInt r) = Error (Exn OverflowError msg)
           ∧ 2 ^ 53 ≤ Z.abs r.
Proof.
  unfold moist_of.
  destruct (moisture_to_scale (PyInt r)) as [x|e] eqn:E; [left; reflexivity|].
  right. revert E. unfold moisture_to_scale, py_truediv, int_truediv.
  change (20 =? 0) with false. cbv iota.
  destruct (int_small r) eqn:Hs; cbn [andb].
  - change (int_small 20) with true. discriminate.
  - unfold int_small in Hs. apply Z.ltb_ge in Hs.
    destruct (int_quotient r 20); try discriminate.
    intros [= <-]. eexists. split; [reflexivity|exact Hs].
Qed.

Lemma moisture_to_scale_small r :
  Z.abs r < 2 ^ 53 →
  moisture_to_scale (PyInt r) = Ok (PyFloat (float_of_int r / 20))
  ∧ moist_of r = PyFloat (float_of_int r / 20).
Proof.
  intros Hr. unfold moist_of, moisture_to_scale, py_truediv, int_truediv.
  change (20 =? 0) with false. cbv iota.
  apply Z.ltb_lt in Hr. fold (int_small r) in Hr. rewrite Hr.
  change (int_small 20) with true. cbn [andb]. cbv iota.
  rewrite float_of_int_20. split; reflexivity.
Qed.

Lemma moist_of_float r : ∃ x, moist_of r = PyFloat x.
Proof.
  unfold moist_of, moisture_to_scale, py_truediv, int_truediv.
  change (20 =? 0) with false. cbv iota.
  destruct (int_small r && int_small 20); [eauto|].
  destruct (int_quotient r 20); eauto.
Qed.

Lemma getitem_sunlight pm l r c :
  py_getitem (measured pm l r c) "sunlight" = Ok (sun_of l).
Proof. unfold py_getitem, measured. by simplify_map_eq. Qed.

Lemma getitem_moisture pm l r c :
  py_getitem (measured pm l r c) "moisture" = Ok (moist_of r).
Proof. unfold py_getitem, measured. by simplify_map_eq. Qed.

Lemma getitem_temperature pm l r c :
  py_getitem (measured pm l r c) "temperature" = Ok (fahr_of c).
Proof. unfold py_getitem, measured. by simplify_map_eq. Qed.

(** ** Every iteration has one of the shapes of [iteration] *)

Ltac unfold_script :=
  unfold loop_body, take_measurements, send_measurements, on_OSError,
    try_except, publish, monotonic, call, print, lift,
    mbind, mret, m_mbind, m_mret, m_bind, m_ret.

Ltac run_step :=
  first
  [ match goal with
    | |- context [<["temperature":=fahr_of ?c]>
                    (<["moisture":=moist_of ?r]> (<["sunlight":=sun_of ?l]> ?pm))] =>
        change (<["temperature":=fahr_of c]>
                  (<["moisture":=moist_of r]> (<["sunlight":=sun_of l]> pm)))
          with (measured pm l r c)
    end
  | rewrite lux_to_footcandle_float
  | match goal with
    | |- context [moisture_to_scale (PyInt ?r)] =>
        let H := fresh "Hm" in
        destruct (moisture_to_scale_cases r) as [H|(? & H & ?)]; rewrite H
    end
  | rewrite cel_to_fahr_float
  | rewrite getitem_sunlight
  | rewrite getitem_moisture
  | rewrite getitem_temperature
  | match goal with
    | |- context [time_monotonic ?d ?w] =>
        destruct (time_monotonic d w) as [? ?]
    | |- context [light_sensor_lux ?d ?w] =>
        destruct (light_sensor_lux d w) as [[?|?] ?]
    | |- context [soil_sensor_moisture_read ?d ?w] =>
        destruct (soil_sensor_moisture_read d w) as [[?|?] ?]
    | |- context [soil_sensor_get_temp ?d ?w] =>
        destruct (soil_sensor_get_temp d w) as [[?|?] ?]
    | |- context [io_publish ?d ?f ?x ?w] =>
        destruct (io_publish d f x w) as [[[]|?] ?]
    | |- context [wifi_reset ?d ?w] =>
        destruct (wifi_reset d w) as [[[]|?] ?]
    | |- context [if is_OSError ?e then _ else _] =>
        destruct (is_OSError e) eqn:?
    | |- context [if (60 <=? ?t - ?u)%float then _ else _] =>
        destruct (60 <=? t - u)%float eqn:?
    end ]; cbn [app].

Ltac unfold_startup :=
  unfold startup, monotonic, call, print, lift, py_getitem, py_raise,
    mbind, mret, m_mbind, m_mret, m_bind, m_ret.

(** One step of the start-up: the next driver call, or lookup in
    [secrets], with each of its outcomes. *)
Ltac startup_step :=
  match goal with
  | |- context [setup_devices ?d ?w] =>
      destruct (setup_devices d w) as [[[]|?] ?]
  | |- context [wifi_connect ?d ?w] =>
      destruct (wifi_connect d w) as [[[]|?] ?]
  | |- context [mqtt_set_socket ?d ?w] =>
      destruct (mqtt_set_socket d w) as [[[]|?] ?]
  | |- context [secrets ?d !! ?k] =>
      destruct (secrets d !! k) eqn:?
  | |- context [mqtt_client ?d ?u ?p ?w] =>
      destruct (mqtt_client d u p w) as [[[]|?] ?]
  | |- context [io_mqtt ?d ?w] =>
      destruct (io_mqtt d w) as [[[]|?] ?]
  | |- context [io_connect ?d ?w] =>
      destruct (io_connect d w) as [[[]|?] ?]
  | |- context [time_monotonic ?d ?w] =>
      destruct (time_monotonic d w) as [? ?]
  end; cbn [app res events world].

Section Cycle.
Context {W : Type} (drv : drivers W).

Lemma loop_body_iteration v w : iteration v (loop_body drv v w).
Proof.
  unfold_script.
  repeat run_step.
  all: try by (constructor; assumption).
  all: match goal with
       | |- iteration _ (Out _ _ (Monotonic ?t :: _ :: Lux (Ok ?l) ::
              MoistureRead (Ok ?r) :: GetTemp (Ok ?c) :: _)) =>
           first
           [ by apply (it_sent v t l r c)
           | by eapply (it_caught v t l r c 0 _ _ _ (Ok ()))
           | by eapply (it_caught v t l r c 1 _ _ _ (Ok ()))
           | by eapply (it_caught v t l r c 2 _ _ _ (Ok ()))
           | by eapply (it_caught v t l r c 0 _ _ _ (Error _))
           | by eapply (it_caught v t l r c 1 _ _ _ (Error _))
           | by eapply (it_caught v t l r c 2 _ _ _ (Error _))
           | by eapply (it_uncaught v t l r c 0)
           | by eapply (it_uncaught v t l r c 1)
           | by eapply (it_uncaught v t l r c 2) ]
       end.
Qed.
End Cycle.
(** ** Binary64 subtraction, as far as the interval test needs it *)

Lemma digits2_pos_bounds (m : positive) :
  2 ^ (Z.pos (digits2_pos m) - 1) <= Z.pos m < 2 ^ Z.pos (digits2_pos m).
Proof.
  induction m as [p IH|p IH|]; cbn [digits2_pos].
  - rewrite Pos2Z.inj_succ, (Pos2Z.inj_xI p).
    replace (Z.succ (Z.pos (digits2_pos p)) - 1) with (Z.succ (Z.pos (digits2_pos p) - 1)) by lia.
    rewrite !Z.pow_succ_r by lia.
    revert IH. generalize (2 ^ (Z.pos (digits2_pos p) - 1)) (2 ^ Z.pos (digits2_pos p)). lia.
  - rewrite Pos2Z.inj_succ, (Pos2Z.inj_xO p).
    replace (Z.succ (Z.pos (digits2_pos p)) - 1) with (Z.succ (Z.pos (digits2_pos p) - 1)) by lia.
    rewrite !Z.pow_succ_r by lia.
    revert IH. generalize (2 ^ (Z.pos (digits2_pos p) - 1)) (2 ^ Z.pos (digits2_pos p)). lia.
  - cbn. lia.
Qed.

Lemma pow2_pos (n : Z) : 0 <= n -> 0 < 2 ^ n.
Proof. intros. apply Z.pow_pos_nonneg; lia. Qed.

Lemma pow2_split (a b : Z) : 0 <= a -> 0 <= b -> 2 ^ (a + b) = 2 ^ a * 2 ^ b.
Proof. intros. apply Z.pow_add_r; assumption. Qed.

Lemma pow2_le (a b : Z) : 0 <= a <= b -> 2 ^ a <= 2 ^ b.
Proof. intros. apply Z.pow_le_mono_r; lia. Qed.

Lemma pow2_lt_inv (a b : Z) : 0 <= b -> 2 ^ a < 2 ^ b -> a < b.
Proof.
  intros Hb H. destruct (Z_lt_le_dec a b) as [|Hle]; [assumption|].
  pose proof (pow2_le b a ltac:(lia)). lia.
Qed.

(** The number of binary digits is fixed by the enclosing powers of two. *)
Lemma digits2_pos_unique (m : positive) (d : Z) :
  0 < d -> 2 ^ (d - 1) <= Z.pos m < 2 ^ d -> Z.pos (digits2_pos m) = d.
Proof.
  intros Hd [Hlo Hhi]. pose proof (digits2_pos_bounds m) as [Glo Ghi].
  assert (Z.pos (digits2_pos m) - 1 < d) by (apply pow2_lt_inv; lia).
  assert (d - 1 < Z.pos (digits2_pos m)) by (apply pow2_lt_inv; lia).
  lia.
Qed.

Lemma shl_align_spec (m : positive) (e e' : Z) :
  e' <= e ->
  Z.pos (fst (shl_align m e e')) = Z.pos m * 2 ^ (e - e')
  /\ snd (shl_align m e e') = e'.
Proof.
  intros He. unfold shl_align.
  destruct (e' - e) as [|d|d] eqn:Hd; try lia.
  - assert (e = e') as -> by lia. rewrite Z.sub_diag. cbn [fst snd]. split; lia.
  - cbn [fst snd]. split; [|reflexivity].
    replace (e - e') with (Z.pos d) by lia.
    change (Z.pos (shift_pos d m) = Z.pos m * 2 ^ Z.pos d).
    rewrite shift_pos_correct. change (Zpower_pos 2 d) with (2 ^ Z.pos d). lia.
Qed.

Lemma shr_inv_0 (m : Z) : 0 <= m -> shr_inv m 0 (Build_shr_record m false false).
Proof. intros. unfold shr_inv; cbn [shr_m shr_r shr_s]. rewrite Z.pow_0_r. lia. Qed.

Lemma shr_1_inv (m n : Z) (mrs : shr_record) :
  0 <= n -> shr_inv m n mrs -> shr_inv m (n + 1) (shr_1 mrs).
Proof.
  intros Hn. destruct mrs as [q r s]. unfold shr_inv; cbn [shr_m shr_r shr_s].
  rewrite (pow2_split n 1), Z.pow_1_r by lia.
  pose proof (pow2_pos n Hn) as Hp. revert Hp. generalize (2 ^ n). intros p Hp.
  intros (Hq & Hrem & Hloc).
  destruct q as [|[q|q|]|]; try lia; cbn [shr_1 shr_m shr_r shr_s];
    rewrite ?(Pos2Z.inj_xI q), ?(Pos2Z.inj_xO q);
    destruct r, s; cbn [orb]; nia.
Qed.

Lemma iter_pos_shr_1_inv (p : positive) (m n : Z) (mrs : shr_record) :
  0 <= n -> shr_inv m n mrs -> shr_inv m (n + Z.pos p) (SpecFloat.iter_pos shr_1 p mrs).
Proof.
  revert n mrs. induction p as [p IH|p IH|]; intros n mrs Hn H; cbn [SpecFloat.iter_pos].
  - replace (n + Z.pos p~1) with (n + 1 + Z.pos p + Z.pos p) by lia.
    apply IH; [lia|]. apply IH; [lia|]. apply shr_1_inv; assumption.
  - replace (n + Z.pos p~0) with (n + Z.pos p + Z.pos p) by lia.
    apply IH; [lia|]. apply IH; assumption.
  - apply shr_1_inv; assumption.
Qed.

Lemma fexp_64 (x : Z) : fexp 53 1024 x = Z.max (x - 53) (-1074).
Proof. reflexivity. Qed.

(** The first shift of [binary_round_aux]: none for a mantissa of at most
    53 digits, and otherwise as many as there are digits beyond 53. *)
Lemma shr_fexp_short (m : positive) (e : Z) :
  -1074 <= e -> Z.pos (digits2_pos m) <= 53 ->
  shr_fexp 53 1024 (Z.pos m) e loc_Exact
  = (Build_shr_record (Z.pos m) false false, e).
Proof.
  intros He Hd. unfold shr_fexp, shr. cbn [Zdigits2 shr_record_of_loc].
  rewrite fexp_64.
  destruct (Z.max (Z.pos (digits2_pos m) + e - 53) (-1074) - e) eqn:E;
    [reflexivity|lia|reflexivity].
Qed.

Lemma shr_fexp_long (m : positive) (e : Z) :
  -1074 <= e -> 53 < Z.pos (digits2_pos m) ->
  exists mrs,
    shr_fexp 53 1024 (Z.pos m) e loc_Exact
    = (mrs, e + (Z.pos (digits2_pos m) - 53))
    /\ shr_inv (Z.pos m) (Z.pos (digits2_pos m) - 53) mrs.
Proof.
  intros He Hd. unfold shr_fexp, shr. cbn [Zdigits2 shr_record_of_loc].
  rewrite fexp_64.
  destruct (Z.max (Z.pos (digits2_pos m) + e - 53) (-1074) - e) as [|p|p] eqn:E;
    [lia| |lia].
  replace (Z.pos (digits2_pos m) - 53) with (Z.pos p) by lia.
  eexists; split; [reflexivity|].
  change (Z.pos p) with (0 + Z.pos p) at 1.
  apply iter_pos_shr_1_inv; [lia|]. apply shr_inv_0. lia.
Qed.

(** Rounding to nearest, ties to even, of a shifted mantissa. *)
Lemma round_nearest_even_spec (m k : Z) (mrs : shr_record) :
  0 <= k -> shr_inv m k mrs ->
  let m1 := round_nearest_even (shr_m mrs) (loc_of_shr_record mrs) in
  shr_m mrs <= m1 <= shr_m mrs + 1
  /\ 2 * Z.abs (m - m1 * 2 ^ k) <= 2 ^ k
  /\ (2 * Z.abs (m - m1 * 2 ^ k) = 2 ^ k -> Z.even m1 = true).
Proof.
  intros Hk. destruct mrs as [q r s]. unfold shr_inv; cbn [shr_m shr_r shr_s].
  pose proof (pow2_pos k Hk) as Hp. revert Hp. generalize (2 ^ k). intros p Hp.
  intros (Hq & Hrem & Hloc).
  destruct r, s; cbn [loc_of_shr_record round_nearest_even].
  - split; [lia|]. split; [lia|]. intros; exfalso; lia.
  - destruct (Z.even q) eqn:Ev.
    + split; [lia|]. split; [lia|]. trivial.
    + split; [lia|]. split; [lia|]. intros _.
      rewrite Z.even_add, Ev. reflexivity.
  - split; [lia|]. split; [lia|]. intros; exfalso; lia.
  - split; [lia|]. split; [lia|]. intros; exfalso; lia.
Qed.

(** A mantissa shifted down to 53 digits. *)
Lemma shr_inv_53 (m : positive) (mrs : shr_record) :
  53 < Z.pos (digits2_pos m) ->
  shr_inv (Z.pos m) (Z.pos (digits2_pos m) - 53) mrs ->
  2 ^ 52 <= shr_m mrs < 2 ^ 53.
Proof.
  intros Hd (Hq & Hrem & _).
  pose proof (digits2_pos_bounds m) as [Hlo Hhi].
  assert (2 ^ (Z.pos (digits2_pos m) - 1)
          = 2 ^ (Z.pos (digits2_pos m) - 53) * 2 ^ 52) as E1
    by (rewrite <- pow2_split by lia; f_equal; lia).
  assert (2 ^ Z.pos (digits2_pos m)
          = 2 ^ (Z.pos (digits2_pos m) - 53) * 2 ^ 53) as E2
    by (rewrite <- pow2_split by lia; f_equal; lia).
  rewrite E1 in Hlo. rewrite E2 in Hhi. clear E1 E2.
  pose proof (pow2_pos (Z.pos (digits2_pos m) - 53) ltac:(lia)) as Hp.
  revert Hp Hlo Hhi Hrem. generalize (2 ^ (Z.pos (digits2_pos m) - 53)).
  intros p Hp Hlo Hhi Hrem. split; nia.
Qed.

Lemma log2_units (m : positive) (e : Z) :
  -1074 <= e ->
  Z.log2 (units (Z.pos m) e) = Z.pos (digits2_pos m) - 1 + (e + 1074).
Proof.
  intros He. unfold units. apply Z.log2_unique; [lia|].
  pose proof (digits2_pos_bounds m) as [Hlo Hhi].
  replace (Z.succ (Z.pos (digits2_pos m) - 1 + (e + 1074)))
    with (Z.pos (digits2_pos m) + (e + 1074)) by lia.
  rewrite (pow2_split (Z.pos (digits2_pos m) - 1) (e + 1074)),
    (pow2_split (Z.pos (digits2_pos m)) (e + 1074)) by lia.
  pose proof (pow2_pos (e + 1074) ltac:(lia)) as Hp. split.
  - apply Z.mul_le_mono_nonneg_r; lia.
  - apply Z.mul_lt_mono_pos_r; assumption.
Qed.

Lemma grid_pos (n : Z) : 0 < grid n.
Proof. unfold grid. apply pow2_pos. lia. Qed.

(** A number that is on its own grid is its own rounding. *)
Lemma rounds_exact (n j : Z) : n = j * grid n -> rounds n n.
Proof.
  intros E. exists j. pose proof (grid_pos n).
  rewrite Z.sub_diag. cbn [Z.abs]. split; [exact E|]. split; [lia|lia].
Qed.

Lemma rounds_short (m : positive) (e : Z) :
  -1074 <= e -> Z.pos (digits2_pos m) <= 53 ->
  rounds (units (Z.pos m) e) (units (Z.pos m) e).
Proof.
  intros He Hd.
  apply (rounds_exact _
    (Z.pos m * 2 ^ (e + 1074 - Z.max 0 (Z.pos (digits2_pos m) - 53 + (e + 1074))))).
  unfold grid. rewrite log2_units by lia.
  replace (Z.pos (digits2_pos m) - 1 + (e + 1074) - 52)
    with (Z.pos (digits2_pos m) - 53 + (e + 1074)) by lia.
  unfold units. rewrite <- Z.mul_assoc. f_equal.
  rewrite <- pow2_split by lia. f_equal. lia.
Qed.

Lemma rounds_long (m : positive) (e m1 : Z) :
  -1074 <= e -> 53 < Z.pos (digits2_pos m) ->
  2 * Z.abs (Z.pos m - m1 * 2 ^ (Z.pos (digits2_pos m) - 53))
    <= 2 ^ (Z.pos (digits2_pos m) - 53) ->
  (2 * Z.abs (Z.pos m - m1 * 2 ^ (Z.pos (digits2_pos m) - 53))
     = 2 ^ (Z.pos (digits2_pos m) - 53) -> Z.even m1 = true) ->
  rounds (units (Z.pos m) e) (units m1 (e + (Z.pos (digits2_pos m) - 53))).
Proof.
  intros He Hd Hle Htie. exists m1.
  unfold grid. rewrite log2_units by lia.
  replace (Z.max 0 (Z.pos (digits2_pos m) - 1 + (e + 1074) - 52))
    with (Z.pos (digits2_pos m) - 53 + (e + 1074)) by lia.
  unfold units.
  replace (e + (Z.pos (digits2_pos m) - 53) + 1074)
    with (Z.pos (digits2_pos m) - 53 + (e + 1074)) by lia.
  rewrite (pow2_split (Z.pos (digits2_pos m) - 53) (e + 1074)) by lia.
  pose proof (pow2_pos (e + 1074) ltac:(lia)) as Hg.
  pose proof (pow2_pos (Z.pos (digits2_pos m) - 53) ltac:(lia)) as Hk.
  revert Hg Hk Hle Htie.
  generalize (2 ^ (e + 1074)) (2 ^ (Z.pos (digits2_pos m) - 53)).
  intros g k Hg Hk Hle Htie.
  replace (Z.pos m * g - m1 * (k * g)) with ((Z.pos m - m1 * k) * g) by ring.
  rewrite Z.abs_mul, (Z.abs_eq g) by lia.
  split; [reflexivity|]. split; [nia|].
  intros E. apply Htie. nia.
Qed.

Lemma units_pos_pos (m : positive) (e : Z) : -1074 <= e -> 0 < units (Z.pos m) e.
Proof.
  intros He. unfold units. pose proof (pow2_pos (e + 1074) ltac:(lia)). nia.
Qed.

(** [binary_round_aux] on a positive mantissa: the result is the input
    rounded to nearest even, or an infinity when the exponent is out of
    range. *)
Lemma binary_round_aux_spec (s : bool) (m : positive) (e : Z) :
  -1074 <= e ->
  exists m2 e2,
    binary_round_aux 53 1024 s (Z.pos m) e loc_Exact
    = (if e2 <=? 971 then S754_finite s m2 e2 else S754_infinity s)
    /\ e <= e2 <= Z.max e (Z.pos (digits2_pos m) + e - 53) + 1
    /\ rounds (units (Z.pos m) e) (units (Z.pos m2) e2).
Proof.
  intros He. unfold binary_round_aux.
  destruct (Z_le_gt_dec (Z.pos (digits2_pos m)) 53) as [Hd|Hd].
  - rewrite shr_fexp_short by assumption.
    cbn [shr_m loc_of_shr_record round_nearest_even].
    rewrite shr_fexp_short by assumption. cbn [shr_m].
    exists m, e. split; [reflexivity|]. split; [lia|].
    apply rounds_short; assumption.
  - destruct (shr_fexp_long m e He ltac:(lia)) as (mrs & -> & Hinv).
    pose proof (shr_inv_53 m mrs ltac:(lia) Hinv) as Hq.
    pose proof (round_nearest_even_spec (Z.pos m) (Z.pos (digits2_pos m) - 53) mrs ltac:(lia) Hinv) as (Hm1 & Hle & Htie).
    pose proof (rounds_long m e _ He ltac:(lia) Hle Htie) as Hr.
    revert Hm1 Hr. clear Hle Htie.
    generalize (round_nearest_even (shr_m mrs) (loc_of_shr_record mrs)).
    intros m1 Hm1 Hr.
    destruct m1 as [|m1|m1]; [lia| |lia].
    destruct (Z_lt_le_dec (Z.pos m1) (2 ^ 53)) as [Hlt|Hge].
    + assert (Z.pos (digits2_pos m1) = 53) as Hd1
        by (apply digits2_pos_unique; [lia|]; change (53 - 1) with 52; lia).
      rewrite shr_fexp_short by lia. cbn [shr_m].
      exists m1, (e + (Z.pos (digits2_pos m) - 53)).
      split; [reflexivity|]. split; [lia|exact Hr].
    + assert (Z.pos m1 = 2 ^ 53) as E1 by lia.
      assert (Z.pos (digits2_pos m1) = 54) as Hd1
        by (apply digits2_pos_unique; [lia|]; rewrite E1;
            change (54 - 1) with 53; split; [lia|]; apply Z.pow_lt_mono_r; lia).
      destruct (shr_fexp_long m1 (e + (Z.pos (digits2_pos m) - 53)) ltac:(lia) ltac:(lia))
        as (mrs2 & -> & Hinv2).
      rewrite Hd1 in *. change (54 - 53) with 1 in *.
      destruct Hinv2 as (Hq2 & Hrem2 & _). rewrite E1, Z.pow_1_r in Hrem2.
      assert (shr_m mrs2 = 2 ^ 52) as E2.
      { change (2 ^ 53) with (2 * 2 ^ 52) in Hrem2. lia. }
      rewrite E2. change (2 ^ 52) with (Z.pos (2 ^ 52)%positive).
      cbv iota beta.
      exists (2 ^ 52)%positive, (e + (Z.pos (digits2_pos m) - 53) + 1).
      split; [reflexivity|]. split; [lia|].
      replace (units (Z.pos (2 ^ 52)) (e + (Z.pos (digits2_pos m) - 53) + 1))
        with (units (Z.pos m1) (e + (Z.pos (digits2_pos m) - 53))); [exact Hr|].
      unfold units. rewrite E1.
      replace (e + (Z.pos (digits2_pos m) - 53) + 1 + 1074)
        with (1 + (e + (Z.pos (digits2_pos m) - 53) + 1074)) by lia.
      rewrite (pow2_split 1) by lia.
      change (2 ^ 53) with (2 ^ 52 * 2 ^ 1).
      change (Z.pos (2 ^ 52)) with (2 ^ 52). ring.
Qed.

Lemma shl_align_ge (m : positive) (e e' : Z) :
  e <= e' -> shl_align m e e' = (m, e).
Proof.
  intros He. unfold shl_align. destruct (e' - e) eqn:E; try reflexivity. lia.
Qed.

Lemma digits2_pos_shift (m mz : positive) (k : Z) :
  0 <= k -> Z.pos mz = Z.pos m * 2 ^ k ->
  Z.pos (digits2_pos mz) = Z.pos (digits2_pos m) + k.
Proof.
  intros Hk E. apply digits2_pos_unique; [lia|]. rewrite E.
  pose proof (digits2_pos_bounds m) as [Hlo Hhi].
  replace (Z.pos (digits2_pos m) + k - 1)
    with (Z.pos (digits2_pos m) - 1 + k) by lia.
  rewrite (pow2_split (Z.pos (digits2_pos m) - 1) k),
    (pow2_split (Z.pos (digits2_pos m)) k) by lia.
  pose proof (pow2_pos k Hk). split.
  - apply Z.mul_le_mono_nonneg_r; lia.
  - apply Z.mul_lt_mono_pos_r; assumption.
Qed.

Lemma binary_round_spec (s : bool) (m : positive) (e : Z) :
  -1074 <= e ->
  exists m2 e2,
    binary_round 53 1024 s m e
    = (if e2 <=? 971 then S754_finite s m2 e2 else S754_infinity s)
    /\ -1074 <= e2 <= Z.max e (Z.pos (digits2_pos m) + e - 53) + 1
    /\ rounds (units (Z.pos m) e) (units (Z.pos m2) e2).
Proof.
  intros He. unfold binary_round. rewrite fexp_64.
  destruct (Z_lt_le_dec (Z.max (Z.pos (digits2_pos m) + e - 53) (-1074)) e)
    as [Hlt|Hge].
  - pose proof (shl_align_spec m e
      (Z.max (Z.pos (digits2_pos m) + e - 53) (-1074)) ltac:(lia)) as [Hm Hs].
    destruct (shl_align m e (Z.max (Z.pos (digits2_pos m) + e - 53) (-1074)))
      as [mz ez]. cbn [fst snd] in Hm, Hs. subst ez.
    destruct (binary_round_aux_spec s mz
      (Z.max (Z.pos (digits2_pos m) + e - 53) (-1074)) ltac:(lia))
      as (m2 & e2 & -> & Hb & Hr).
    rewrite (digits2_pos_shift m mz
      (e - Z.max (Z.pos (digits2_pos m) + e - 53) (-1074)) ltac:(lia) Hm) in Hb.
    exists m2, e2. split; [reflexivity|]. split; [lia|].
    replace (units (Z.pos m) e)
      with (units (Z.pos mz) (Z.max (Z.pos (digits2_pos m) + e - 53) (-1074)));
      [exact Hr|].
    unfold units. rewrite Hm, <- Z.mul_assoc. f_equal.
    rewrite <- pow2_split by lia. f_equal. lia.
  - rewrite shl_align_ge by lia.
    destruct (binary_round_aux_spec s m e He) as (m2 & e2 & -> & Hb & Hr).
    exists m2, e2. split; [reflexivity|]. split; [lia|exact Hr].
Qed.

(** [binary_normalize] of a non-zero integer mantissa: the sign is kept and
    the magnitude is rounded to nearest even. *)
Lemma binary_normalize_spec (M e : Z) :
  M <> 0 -> -1074 <= e ->
  exists m2 e2,
    binary_normalize 53 1024 M e false
    = (if e2 <=? 971 then S754_finite (M <? 0) m2 e2
       else S754_infinity (M <? 0))
    /\ -1074 <= e2 <= Z.max e (Zdigits2 M + e - 53) + 1
    /\ rounds (units (Z.abs M) e) (units (Z.pos m2) e2).
Proof.
  intros HM He. destruct M as [|m|m]; [congruence| |];
    cbn [binary_normalize Z.abs Zdigits2];
    apply binary_round_spec; assumption.
Qed.

Lemma valid_finite (s : bool) (m : positive) (e : Z) :
  valid_binary (S754_finite s m e) = true ->
  -1074 <= e <= 971
  /\ Z.pos (digits2_pos m) <= 53
  /\ (-1074 < e -> Z.pos (digits2_pos m) = 53).
Proof.
  unfold SpecFloat.valid_binary, bounded, canonical_mantissa, prec, emax.
  rewrite fexp_64.
  change (1024 - 53) with 971.
  intros H. apply andb_prop in H as [H1 H2].
  apply Z.eqb_eq in H1. apply Z.leb_le in H2. lia.
Qed.

(** Among valid numbers a larger exponent means a larger magnitude. *)
Lemma units_lt_exponent (m1 m2 : positive) (e1 e2 : Z) :
  -1074 <= e1 -> Z.pos (digits2_pos m1) <= 53 ->
  Z.pos (digits2_pos m2) = 53 -> e1 < e2 ->
  units (Z.pos m1) e1 < units (Z.pos m2) e2.
Proof.
  intros He1 Hd1 Hd2 Hlt. unfold units.
  pose proof (digits2_pos_bounds m1) as [_ Hhi].
  pose proof (digits2_pos_bounds m2) as [Hlo _].
  rewrite Hd2 in Hlo. change (53 - 1) with 52 in Hlo.
  assert (Z.pos m1 < 2 ^ 53) as Hm1.
  { eapply Z.lt_le_trans; [exact Hhi|]. apply pow2_le. lia. }
  replace (e2 + 1074) with (e2 - e1 - 1 + (1 + (e1 + 1074))) by lia.
  rewrite (pow2_split (e2 - e1 - 1)), (pow2_split 1) by lia.
  pose proof (pow2_pos (e2 - e1 - 1) ltac:(lia)) as Hk.
  pose proof (pow2_pos (e1 + 1074) ltac:(lia)) as Hg.
  revert Hk Hg. generalize (2 ^ (e2 - e1 - 1)) (2 ^ (e1 + 1074)).
  intros k g Hk Hg. rewrite Z.pow_1_r.
  change (2 ^ 53) with (2 * 2 ^ 52) in Hm1.
  revert Hm1 Hlo. generalize (2 ^ 52). intros c Hm1 Hlo.
  assert (Z.pos m1 * g < 2 * c * g) by nia.
  assert (c * g <= Z.pos m2 * g) by (apply Z.mul_le_mono_nonneg_r; lia).
  assert (1 * g <= k * g) by (apply Z.mul_le_mono_nonneg_r; lia).
  assert (Z.pos m2 * (1 * g) <= Z.pos m2 * (k * g))
    by (apply Z.mul_le_mono_nonneg_l; lia).
  lia.
Qed.

Lemma compare_magnitude (m1 m2 : positive) (e1 e2 : Z) :
  valid_binary (S754_finite false m1 e1) = true ->
  valid_binary (S754_finite false m2 e2) = true ->
  match e1 ?= e2 with
  | Lt => Lt
  | Gt => Gt
  | Eq => Pos.compare_cont Eq m1 m2
  end = (units (Z.pos m1) e1 ?= units (Z.pos m2) e2).
Proof.
  intros H1 H2.
  apply valid_finite in H1 as (He1 & Hd1 & Hn1).
  apply valid_finite in H2 as (He2 & Hd2 & Hn2).
  destruct (Z.compare_spec e1 e2) as [->|Hlt|Hgt].
  - unfold units. change (Pos.compare_cont Eq m1 m2) with (Z.pos m1 ?= Z.pos m2).
    apply Zmult_compare_compat_r.
    pose proof (pow2_pos (e2 + 1074) ltac:(lia)). lia.
  - symmetry. apply Z.compare_lt_iff.
    apply units_lt_exponent; lia.
  - symmetry. apply Z.compare_gt_iff.
    apply units_lt_exponent; lia.
Qed.

(** On valid finite numbers [SFcompare] is the order of the values. *)
Lemma SFcompare_finite (x y : spec_float) :
  valid_binary x = true -> valid_binary y = true ->
  SFfinite x = true -> SFfinite y = true ->
  SFcompare x y = Some (SF2Z x ?= SF2Z y).
Proof.
  intros Vx Vy Fx Fy.
  destruct x as [sx|sx| |sx mx ex]; try discriminate Fx;
    destruct y as [sy|sy| |sy my ey]; try discriminate Fy;
    cbn [SFcompare SF2Z].
  - reflexivity.
  - pose proof (valid_finite _ _ _ Vy) as (He & _).
    pose proof (units_pos_pos my ey ltac:(lia)).
    destruct sy; f_equal; symmetry;
      [apply Z.compare_gt_iff|apply Z.compare_lt_iff]; lia.
  - pose proof (valid_finite _ _ _ Vx) as (He & _).
    pose proof (units_pos_pos mx ex ltac:(lia)).
    destruct sx; f_equal; symmetry;
      [apply Z.compare_lt_iff|apply Z.compare_gt_iff]; lia.
  - pose proof (valid_finite _ _ _ Vx) as (Hex & _).
    pose proof (valid_finite _ _ _ Vy) as (Hey & _).
    pose proof (units_pos_pos mx ex ltac:(lia)).
    pose proof (units_pos_pos my ey ltac:(lia)).
    destruct sx, sy; f_equal.
    + rewrite Z.compare_opp, (Z.compare_antisym (units (Z.pos mx) ex)).
      rewrite <- (compare_magnitude mx my ex ey Vx Vy).
      destruct (ex ?= ey); reflexivity.
    + symmetry. apply Z.compare_lt_iff. lia.
    + symmetry. apply Z.compare_gt_iff. lia.
    + apply compare_magnitude; assumption.
Qed.

Lemma grid_binade (n k : Z) :
  52 <= k -> 2 ^ k <= n < 2 ^ (k + 1) -> grid n = 2 ^ (k - 52).
Proof.
  intros Hk Hn. unfold grid. rewrite (Z.log2_unique n k) by lia.
  f_equal. lia.
Qed.

Lemma grid_le (n k : Z) : 0 <= k -> 0 < n < 2 ^ (k + 53) -> grid n <= 2 ^ k.
Proof.
  intros Hk Hn. unfold grid. apply pow2_le.
  assert (Z.log2 n < k + 53) by (apply Z.log2_lt_pow2; lia). lia.
Qed.

Lemma grid_mul_le (n : Z) : 2 ^ 52 <= n -> 2 ^ 52 * grid n <= n.
Proof.
  intros Hn. unfold grid.
  assert (52 <= Z.log2 n) by (apply Z.log2_le_pow2; lia).
  rewrite Z.max_r by lia. rewrite <- pow2_split by lia.
  replace (52 + (Z.log2 n - 52)) with (Z.log2 n) by lia.
  apply Z.log2_spec. lia.
Qed.

(** What rounds to at least 60 s: everything from half a spacing below. *)
Lemma rounds_ge_60 (n v : Z) :
  rounds n v -> 60 * 2 ^ 1074 - 2 ^ 1026 <= n -> 60 * 2 ^ 1074 <= v.
Proof.
  intros (j & Hv & Hle & Htie) Hn.
  destruct (Z_lt_le_dec n (2 ^ 1080)) as [Hlt|Hge].
  - rewrite (grid_binade n 1079) in * by lia. change (1079 - 52) with 1027 in *.
    destruct (Z_lt_le_dec v (60 * 2 ^ 1074)) as [Hv60|]; [exfalso|assumption].
    assert (2 * Z.abs (n - v) = 2 ^ 1027) as E by lia.
    apply Htie in E. apply Z.even_spec in E as [i ->]. lia.
  - pose proof (grid_mul_le n ltac:(lia)). lia.
Qed.

Lemma rounds_lt_60 (n v : Z) :
  rounds n v -> 0 < n < 60 * 2 ^ 1074 - 2 ^ 1026 -> v < 60 * 2 ^ 1074.
Proof.
  intros (j & Hv & Hle & Htie) Hn.
  destruct (Z_lt_le_dec n (2 ^ 1079)) as [Hlt|Hge].
  - pose proof (grid_le n 1026 ltac:(lia) ltac:(change (1026 + 53) with 1079; lia)). lia.
  - rewrite (grid_binade n 1079) in * by lia. change (1079 - 52) with 1027 in *.
    lia.
Qed.

Lemma rounds_error (n v : Z) :
  rounds n v -> 0 < n < 2 ^ 1080 -> Z.abs (n - v) <= 2 ^ 1026.
Proof.
  intros (j & Hv & Hle & Htie) Hn.
  pose proof (grid_le n 1027 ltac:(lia) ltac:(change (1027 + 53) with 1080; lia)).
  lia.
Qed.

(** A multiple of the spacing is not changed by rounding. *)
Lemma rounds_on_grid (n v i : Z) : rounds n v -> n = i * grid n -> v = n.
Proof.
  intros (j & Hv & Hle & Htie) Hn. pose proof (grid_pos n) as Hg.
  revert Hv Hle Hn Hg. generalize (grid n). intros g Hv Hle Hn Hg. subst v.
  assert (i = j); [|subst; reflexivity].
  rewrite Hn in Hle at 1. replace (i * g - j * g) with ((i - j) * g) in Hle by ring.
  rewrite Z.abs_mul, (Z.abs_eq g) in Hle by lia. nia.
Qed.

Lemma units_shift (m mz : positive) (e ez : Z) :
  -1074 <= ez <= e -> Z.pos mz = Z.pos m * 2 ^ (e - ez) ->
  units (Z.pos m) e = Z.pos mz * 2 ^ (ez + 1074).
Proof.
  intros He ->. unfold units. rewrite <- Z.mul_assoc. f_equal.
  rewrite <- pow2_split by lia. f_equal. lia.
Qed.

Lemma Zdigits2_log2 (M e : Z) :
  M <> 0 -> -1074 <= e ->
  Zdigits2 M + e - 53 = Z.log2 (units (Z.abs M) e) - 1126.
Proof.
  intros HM He. destruct M as [|p|p]; [congruence| |].
  - change (Z.pos (digits2_pos p) + e - 53
            = Z.log2 (units (Z.pos p) e) - 1126).
    rewrite log2_units by lia. lia.
  - change (Z.pos (digits2_pos p) + e - 53
            = Z.log2 (units (Z.pos p) e) - 1126).
    rewrite log2_units by lia. lia.
Qed.

(** The difference of two finite numbers: zero when they are equal, and
    otherwise the exact difference rounded to nearest even. *)
Lemma SF64sub_finite (sx sy : bool) (mx my : positive) (ex ey : Z) :
  valid_binary (S754_finite sx mx ex) = true ->
  valid_binary (S754_finite sy my ey) = true ->
  let n := SF2Z (S754_finite sx mx ex) - SF2Z (S754_finite sy my ey) in
  (n = 0
   /\ SF64sub (S754_finite sx mx ex) (S754_finite sy my ey) = S754_zero false)
  \/ (n <> 0
      /\ exists m2 e2,
           SF64sub (S754_finite sx mx ex) (S754_finite sy my ey)
           = (if e2 <=? 971 then S754_finite (n <? 0) m2 e2
              else S754_infinity (n <? 0))
           /\ -1074 <= e2 <= Z.max (Z.min ex ey) (Z.log2 (Z.abs n) - 1126) + 1
           /\ rounds (Z.abs n) (units (Z.pos m2) e2)).
Proof.
  intros Vx Vy n.
  pose proof (valid_finite _ _ _ Vx) as (Hex & _).
  pose proof (valid_finite _ _ _ Vy) as (Hey & _).
  unfold SF64sub, prec, emax. cbn [SFsub].
  pose proof (shl_align_spec mx ex (Z.min ex ey) ltac:(lia)) as [HX _].
  pose proof (shl_align_spec my ey (Z.min ex ey) ltac:(lia)) as [HY _].
  revert HX HY.
  generalize (fst (shl_align mx ex (Z.min ex ey)))
             (fst (shl_align my ey (Z.min ex ey))).
  intros X Y HX HY.
  assert (n = (cond_Zopp sx (Z.pos X) - cond_Zopp sy (Z.pos Y))
              * 2 ^ (Z.min ex ey + 1074)) as Hn.
  { unfold n. cbn [SF2Z].
    rewrite (units_shift mx X ex (Z.min ex ey)) by (lia || exact HX).
    rewrite (units_shift my Y ey (Z.min ex ey)) by (lia || exact HY).
    destruct sx, sy; cbn [cond_Zopp]; ring. }
  clearbody n.
  pose proof (pow2_pos (Z.min ex ey + 1074) ltac:(lia)) as Hg.
  revert Hn. generalize (cond_Zopp sx (Z.pos X) - cond_Zopp sy (Z.pos Y)).
  intros M Hn.
  destruct (Z.eq_dec M 0) as [->|HM].
  - left. split; [lia|reflexivity].
  - right. split; [nia|].
    destruct (binary_normalize_spec M (Z.min ex ey) HM ltac:(lia))
      as (m2 & e2 & E & Hb & Hr).
    assert (Z.abs n = units (Z.abs M) (Z.min ex ey)) as Habs.
    { unfold units. rewrite Hn, Z.abs_mul, (Z.abs_eq (2 ^ _)) by lia.
      reflexivity. }
    assert ((n <? 0) = (M <? 0)) as Hs.
    { destruct (Z.ltb_spec n 0), (Z.ltb_spec M 0); try reflexivity; nia. }
    exists m2, e2. rewrite E, Hs, Habs.
    rewrite <- Zdigits2_log2 by (assumption || lia).
    split; [reflexivity|]. split; assumption.
Qed.

Lemma Prim2SF_60 : Prim2SF 60 = SF60.
Proof. vm_compute. reflexivity. Qed.

Lemma SF2Z_60 : SF2Z SF60 = 60 * 2 ^ 1074.
Proof. vm_compute. reflexivity. Qed.

Lemma valid_60 : valid_binary SF60 = true.
Proof. reflexivity. Qed.

Lemma SFleb_60 (r : spec_float) :
  valid_binary r = true ->
  SFleb SF60 r = true
  <-> r = S754_infinity false \/ (SFfinite r = true /\ 60 * 2 ^ 1074 <= SF2Z r).
Proof.
  intros Vr. destruct (SFfinite r) eqn:Fr.
  - unfold SFleb. rewrite (SFcompare_finite SF60 r valid_60 Vr eq_refl Fr).
    rewrite SF2Z_60. split.
    + intros H. right. split; [reflexivity|].
      destruct (Z.compare_spec (60 * 2 ^ 1074) (SF2Z r)); (lia || discriminate H).
    + intros [->|[_ H]]; [discriminate Fr|].
      destruct (Z.compare_spec (60 * 2 ^ 1074) (SF2Z r)); (lia || reflexivity).
  - destruct r as [s|[]| |s m e]; try discriminate Fr; cbn; split;
      try discriminate; try (intros [H|[H _]]; discriminate H); auto.
Qed.

Lemma SF2Z_on_grid (s : bool) (m : positive) (e : Z) :
  valid_binary (S754_finite s m e) = true ->
  rounds (units (Z.pos m) e) (units (Z.pos m) e).
Proof.
  intros V. apply valid_finite in V as (He & Hd & _).
  apply rounds_short; lia.
Qed.

(** No binary64 number lies strictly between [due_units] and 60 s. *)
Lemma valid_ge_60 (r : spec_float) :
  valid_binary r = true -> SFfinite r = true ->
  due_units <= SF2Z r -> 60 * 2 ^ 1074 <= SF2Z r.
Proof.
  unfold due_units. intros V F H.
  destruct r as [s|s| |s m e]; try discriminate F; cbn [SF2Z] in *; [lia|].
  pose proof (valid_finite _ _ _ V) as (He & _).
  pose proof (units_pos_pos m e ltac:(lia)).
  destruct s; [lia|].
  apply (rounds_ge_60 (units (Z.pos m) e)); [|exact H].
  eapply SF2Z_on_grid, V.
Qed.

Lemma units_overflow (m : positive) (e : Z) :
  971 < e -> 2 ^ 2046 <= units (Z.pos m) e.
Proof.
  intros He. unfold units.
  assert (2 ^ 2046 <= 2 ^ (e + 1074)) by (apply pow2_le; lia).
  pose proof (pow2_pos (e + 1074) ltac:(lia)). nia.
Qed.

(** The interval test on two finite numbers is a test on their exact
    difference. *)
Lemma SF64sub_due (x y : spec_float) :
  valid_binary x = true -> valid_binary y = true ->
  valid_binary (SF64sub x y) = true ->
  SFfinite x = true -> SFfinite y = true ->
  SFleb SF60 (SF64sub x y) = true <-> due_units <= SF2Z x - SF2Z y.
Proof.
  intros Vx Vy Vr Fx Fy.
  assert (forall r, valid_binary r = true -> SFfinite r = true ->
            SFleb SF60 r = true <-> due_units <= SF2Z r) as Hexact.
  { intros r V F. rewrite SFleb_60 by exact V. split.
    - intros [->|[_ H]]; [discriminate F|]. unfold due_units. lia.
    - intros H. right. split; [exact F|]. apply valid_ge_60; assumption. }
  destruct x as [sx|sx| |sx mx ex]; try discriminate Fx;
    destruct y as [sy|sy| |sy my ey]; try discriminate Fy.
  - assert (SF64sub (S754_zero sx) (S754_zero sy) = S754_zero false
            \/ SF64sub (S754_zero sx) (S754_zero sy) = S754_zero true) as [->| ->]
      by (destruct sx, sy; cbn; auto);
      (rewrite Hexact by reflexivity); reflexivity.
  - change (SF64sub (S754_zero sx) (S754_finite sy my ey))
      with (S754_finite (negb sy) my ey) in *.
    rewrite Hexact by (exact Vr || reflexivity).
    cbn [SF2Z]. destruct sy; cbn [negb]; split; lia.
  - change (SF64sub (S754_finite sx mx ex) (S754_zero sy))
      with (S754_finite sx mx ex) in *.
    rewrite Hexact by (exact Vr || reflexivity).
    cbn [SF2Z]. destruct sx; split; lia.
  - destruct (SF64sub_finite sx sy mx my ex ey Vx Vy)
      as [[Hn E]|(Hn & m2 & e2 & E & Hb & Hr)].
    + rewrite E, Hn. unfold due_units. cbn. split; [discriminate|lia].
    + revert Vr. rewrite E. clear E. revert Hn Hb Hr.
      generalize (SF2Z (S754_finite sx mx ex) - SF2Z (S754_finite sy my ey)).
      intros n Hn Hb Hr Vr.
      pose proof (units_pos_pos m2 e2 ltac:(lia)) as Hv.
      destruct (Z.ltb_spec n 0) as [Hneg|Hpos].
      * unfold due_units. destruct (e2 <=? 971).
        -- rewrite SFleb_60 by exact Vr. cbn [SF2Z SFfinite].
           split; [intros [H|[_ H]]; [discriminate H|lia]|lia].
        -- cbn. split; [discriminate|lia].
      * rewrite (Z.abs_eq n) in Hr by lia.
        destruct (Z.leb_spec e2 971) as [Hfin|Hinf].
        -- rewrite SFleb_60 by exact Vr. cbn [SF2Z SFfinite]. split.
           ++ intros [H|[_ H]]; [discriminate H|].
              destruct (Z_lt_le_dec n due_units) as [Hlt|]; [|assumption].
              pose proof (rounds_lt_60 n _ Hr ltac:(unfold due_units in Hlt; lia)).
              lia.
           ++ intros H. right. split; [reflexivity|].
              apply (rounds_ge_60 n); [exact Hr|exact H].
        -- split; [|reflexivity]. intros _.
           destruct (Z_lt_le_dec n due_units) as [Hlt|]; [|assumption].
           pose proof (rounds_lt_60 n _ Hr ltac:(unfold due_units in Hlt; lia)).
           pose proof (units_overflow m2 e2 Hinf). lia.
Qed.

Lemma SFleb_finite (x y : spec_float) :
  valid_binary x = true -> valid_binary y = true ->
  SFfinite x = true -> SFfinite y = true ->
  SFleb x y = true <-> SF2Z x <= SF2Z y.
Proof.
  intros Vx Vy Fx Fy. unfold SFleb. rewrite (SFcompare_finite x y) by assumption.
  destruct (Z.compare_spec (SF2Z x) (SF2Z y)); split;
    (lia || discriminate || reflexivity).
Qed.

(** A clock reading compared with itself is never due: the difference is
    zero, or not a number. *)
Lemma sub_same_not_due (t : float) : (60 <=? t - t)%float = false.
Proof.
  rewrite leb_spec, sub_spec, Prim2SF_60.
  pose proof (Prim2SF_valid t) as V. revert V. generalize (Prim2SF t).
  intros x V. destruct x as [[]|[]| |s m e]; try reflexivity.
  destruct (SF64sub_finite s s m m e e V V) as [[_ E]|(Hn & _)].
  - rewrite E. reflexivity.
  - exfalso. apply Hn. apply Z.sub_diag.
Qed.

(** Once the interval test holds it holds for every later clock reading,
    as long as [last_updated] is not written. *)
Lemma due_monotone (u t1 t2 : float) :
  (60 <=? t1 - u)%float = true -> (t1 <=? t2)%float = true ->
  (60 <=? t2 - u)%float = true.
Proof.
  rewrite !leb_spec, !sub_spec, Prim2SF_60.
  pose proof (Prim2SF_valid (t1 - u)) as V1u.
  pose proof (Prim2SF_valid (t2 - u)) as V2u.
  rewrite sub_spec in V1u, V2u.
  pose proof (Prim2SF_valid u) as Vu.
  pose proof (Prim2SF_valid t1) as V1.
  pose proof (Prim2SF_valid t2) as V2.
  revert Vu V1 V2 V1u V2u.
  generalize (Prim2SF u) (Prim2SF t1) (Prim2SF t2).
  intros xu x1 x2 Vu V1 V2 V1u V2u H1 H12.
  destruct (SFfinite xu) eqn:Fu.
  - destruct (SFfinite x1) eqn:F1.
    + destruct (SFfinite x2) eqn:F2.
      * apply SF64sub_due; try assumption.
        apply SF64sub_due in H1; try assumption.
        apply SFleb_finite in H12; try assumption. lia.
      * destruct x2 as [s2|[]| |s2 m2 e2]; try discriminate F2.
        -- destruct x1; discriminate H12 || discriminate F1.
        -- destruct xu; try discriminate Fu; reflexivity.
        -- destruct x1; discriminate H12 || discriminate F1.
    + destruct x1 as [s1|[]| |s1 m1 e1]; try discriminate F1.
      * destruct xu; discriminate H1 || discriminate Fu.
      * destruct x2 as [s2|[]| |s2 m2 e2]; try discriminate H12.
        destruct xu; try discriminate Fu; reflexivity.
      * destruct xu; discriminate H1 || discriminate Fu.
  - destruct xu as [su|[]| |su mu eu]; try discriminate Fu.
    + destruct x1 as [s1|[]| |s1 m1 e1]; try discriminate H1;
        destruct x2 as [s2|[]| |s2 m2 e2]; try discriminate H12; reflexivity.
    + destruct x1 as [s1|[]| |s1 m1 e1]; discriminate H1.
    + destruct x1 as [s1|[]| |s1 m1 e1]; discriminate H1.
Qed.

(** Subtracting 60 s from a clock reading below [2 ^ 55] s: the result is
    finite and at most half a spacing (of the numbers below 64 s) above
    the exact difference. *)
Lemma SF64sub_60_bound (x : spec_float) :
  valid_binary x = true -> SFfinite x = true ->
  0 <= SF2Z x < 2 ^ 1129 ->
  SFfinite (SF64sub x SF60) = true
  /\ SF2Z (SF64sub x SF60) <= SF2Z x - 60 * 2 ^ 1074 + 2 ^ 1026.
Proof.
  intros V F Hx. destruct x as [s|s| |s m e]; try discriminate F.
  - change (SF64sub (S754_zero s) SF60)
      with (S754_finite true 8444249301319680 (-47)).
    split; [reflexivity|]. cbn [SF2Z].
    change (units 8444249301319680 (-47)) with (SF2Z SF60).
    rewrite SF2Z_60. lia.
  - pose proof (valid_finite _ _ _ V) as (He & Hd & _).
    pose proof (units_pos_pos m e ltac:(lia)) as Hpos.
    destruct s; cbn [SF2Z] in Hx; [lia|].
    destruct (SF64sub_finite false false m 8444249301319680 e (-47) V valid_60)
      as [[Hn E]|(Hn & m2 & e2 & E & Hb & Hr)];
      fold SF60 in *; rewrite SF2Z_60 in *; cbn [SF2Z] in *;
      rewrite E; clear E.
    + split; [reflexivity|]. cbn [SF2Z]. lia.
    + revert Hn Hb Hr.
      set (n := units (Z.pos m) e - 60 * 2 ^ 1074). intros Hn Hb Hr.
      assert (Z.log2 (Z.abs n) < 1129) as Hlog
        by (apply Z.log2_lt_pow2; unfold n; lia).
      assert (e2 <= 971) as He2 by lia.
      apply Z.leb_le in He2. rewrite He2. split; [reflexivity|].
      cbn [SF2Z].
      destruct (Z_lt_le_dec (Z.abs n) (2 ^ 1080)) as [Hsmall|Hbig].
      * pose proof (rounds_error _ _ Hr ltac:(lia)).
        destruct (Z.ltb_spec n 0); lia.
      * assert (2 ^ 1080 <= n) as Hn' by (unfold n in *; lia).
        rewrite (Z.abs_eq n) in Hr, Hlog by lia.
        destruct (Z.ltb_spec n 0); [lia|].
        assert (1080 <= Z.log2 n) as Hlo by (apply Z.log2_le_pow2; lia).
        assert (Z.log2 n <= Z.log2 (units (Z.pos m) e)) as Hmono
          by (apply Z.log2_le_mono; unfold n; lia).
        rewrite log2_units in Hmono by lia.
        enough (units (Z.pos m2) e2 = n) by lia.
        apply (rounds_on_grid n _
                 (Z.pos m * 2 ^ (e + 1074 - (Z.log2 n - 52))
                  - 15 * 2 ^ (1076 - (Z.log2 n - 52)))); [exact Hr|].
        unfold grid. rewrite Z.max_r by lia.
        rewrite Z.mul_sub_distr_r, <- !Z.mul_assoc.
        rewrite <- (pow2_split (e + 1074 - (Z.log2 n - 52))) by lia.
        rewrite <- (pow2_split (1076 - (Z.log2 n - 52))) by lia.
        replace (e + 1074 - (Z.log2 n - 52) + (Z.log2 n - 52))
          with (e + 1074) by lia.
        replace (1076 - (Z.log2 n - 52) + (Z.log2 n - 52)) with 1076 by lia.
        unfold n, units. lia.
Qed.

Lemma Prim2SF_0 : Prim2SF 0 = S754_zero false.
Proof. vm_compute. reflexivity. Qed.

Lemma Prim2SF_2p55 : Prim2SF 0x1p55 = S754_finite false 4503599627370496 3.
Proof. vm_compute. reflexivity. Qed.

(** With [last_updated] set to the clock reading less 60, the interval
    test holds at every later reading, for a clock that starts below
    [2 ^ 55] s. *)
Lemma first_poll_due (t0 t1 : float) :
  (0 <=? t0)%float = true -> (t0 <? 0x1p55)%float = true ->
  (t0 <=? t1)%float = true ->
  (60 <=? t1 - (t0 - 60))%float = true.
Proof.
  rewrite !leb_spec, ltb_spec, !sub_spec, Prim2SF_60, Prim2SF_0, Prim2SF_2p55.
  pose proof (Prim2SF_valid (t1 - (t0 - 60))) as Vr.
  pose proof (Prim2SF_valid (t0 - 60)) as Vb.
  rewrite !sub_spec, Prim2SF_60 in Vr. rewrite sub_spec, Prim2SF_60 in Vb.
  pose proof (Prim2SF_valid t0) as V0.
  pose proof (Prim2SF_valid t1) as V1.
  revert V0 V1 Vb Vr. generalize (Prim2SF t0) (Prim2SF t1).
  intros x0 x1 V0 V1 Vb Vr H0 Hb H01.
  assert (SFfinite x0 = true) as F0
    by (destruct x0 as [s|[]| |s m e]; try reflexivity; discriminate).
  assert (0 <= SF2Z x0 < 2 ^ 1129) as Hx0.
  { split.
    - apply (SFleb_finite (S754_zero false) x0) in H0;
        [exact H0|reflexivity|exact V0|reflexivity|exact F0].
    - unfold SFltb in Hb.
      rewrite (SFcompare_finite x0 (S754_finite false 4503599627370496 3))
        in Hb by (assumption || reflexivity).
      change (SF2Z (S754_finite false 4503599627370496 3)) with (2 ^ 1129) in Hb.
      destruct (Z.compare_spec (SF2Z x0) (2 ^ 1129)); (lia || discriminate Hb). }
  destruct (SF64sub_60_bound x0 V0 F0 Hx0) as [Fb Hbound].
  destruct (SFfinite x1) eqn:F1.
  - apply SF64sub_due; try assumption.
    apply SFleb_finite in H01; try assumption. unfold due_units. lia.
  - destruct x1 as [s1|[]| |s1 m1 e1]; try discriminate F1.
    + destruct x0; discriminate H01 || discriminate F0.
    + destruct (SF64sub x0 SF60); try discriminate Fb; reflexivity.
    + destruct x0; discriminate H01 || discriminate F0.
Qed.


(** ** The claims about the converters *)

(** C5. The moisture scaling is [raw / 20] for every integer reading, with
    no clamping. A reading of at most 53 bits, which covers every value a
    sensor register can hold, is converted to a float and divided by 20.0,
    whatever its size and sign: readings below 200 and above 2000 are
    scaled like the others, and 200 and 2000 give 10.0 and 100.0. A larger
    reading gives the exact quotient rounded once, and raises an
    [OverflowError] when that is beyond the range of the floats; nothing
    else can happen. *)
Theorem moisture_scale_unclamped :
  (∀ r : Z, Z.abs r < 2 ^ 53 →
     moisture_to_scale (PyInt r) = Ok (PyFloat (float_of_int r / 20)))
  ∧ (∀ r : Z,
       (∃ x, moisture_to_scale (PyInt r) = Ok (PyFloat x))
       ∨ (∃ msg, moisture_to_scale (PyInt r) = Error (Exn OverflowError msg)
                 ∧ 2 ^ 53 ≤ Z.abs r))
  ∧ moisture_to_scale (PyInt 200) = Ok (PyFloat 10)
  ∧ moisture_to_scale (PyInt 2000) = Ok (PyFloat 100)
  ∧ moisture_to_scale (PyInt 0) = Ok (PyFloat 0)
  ∧ moisture_to_scale (PyInt 100) = Ok (PyFloat 5)
  ∧ moisture_to_scale (PyInt 4000) = Ok (PyFloat 200)
  ∧ moisture_to_scale (PyInt 65535) = Ok (PyFloat 3276.75)
  ∧ moisture_to_scale (PyInt (-20)) = Ok (PyFloat (-1))
  ∧ moisture_to_scale (PyInt (2 ^ 53 + 3)) = Ok (PyFloat 450359962737049.75)
  ∧ (∃ msg, moisture_to_scale (PyInt (10 ^ 400))
            = Error (Exn OverflowError msg)).
Proof.
  split; [intros r Hr; apply moisture_to_scale_small, Hr|].
  split.
  { intros r. destruct (moisture_to_scale_cases r) as [H|H]; [left|right; exact H].
    destruct (moist_of_float r) as [x Hx]. exists x. rewrite H, Hx. reflexivity. }
  repeat split; try (vm_compute; reflexivity).
  eexists. vm_compute. reflexivity.
Qed.

(** C6. On every float, [cel_to_fahr] returns [c * 1.8 + 32] and raises
    nothing. *)
Theorem cel_to_fahr_exact (c : float) :
  cel_to_fahr (PyFloat c) = Ok (PyFloat (c * 1.80 + 32)).
Proof. exact (cel_to_fahr_float c). Qed.

(** C7. On every float [l >= 0], [lux_to_footcandle] returns [l / 10.764]
    and raises nothing. *)
Theorem lux_to_footcandle_exact (l : float) :
  (0 <=? l)%float = true →
  lux_to_footcandle (PyFloat l) = Ok (PyFloat (l / 10.764)).
Proof. intros _. exact (lux_to_footcandle_float l). Qed.

Lemma lux_to_footcandle_exact_witness :
  (0 <=? 500)%float = true
  ∧ lux_to_footcandle (PyFloat 500) = Ok (PyFloat (500 / 10.764)).
Proof.
  split; [reflexivity|].
  apply (lux_to_footcandle_exact 500). reflexivity.
Defined.

(** ** The claims about one cycle *)

Ltac cycle_cases H :=
  destruct H as
    [ t w' Hdue | t e' w' Hdue | t l e' w' Hdue
    | t l r e' w' Hdue Hm | t l r e' w' Hdue Hm
    | t l r c t' w' Hdue Hm
    | t l r c n f x' e' rr w' Hdue Hm Hn He
    | t l r c n f x' e' w' Hdue Hm Hn He ];
  try (destruct n as [|[|[|n]]]; unfold feeds in Hn; simpl in Hn; [injection Hn as <- <-..|discriminate Hn]);
  try (destruct rr as [[]|?]);
  cbn [res events world app sampling published feeds map take fst snd] in *.

(** Which element of a concrete trace an [In] hypothesis can be. *)
Ltac in_inv H :=
  cbn [In] in H;
  repeat match type of H with
  | _ ∨ _ => destruct H as [H|H]; [ try discriminate H | ]
  | False => destruct H
  end;
  try (injection H as ?; subst).

Ltac trace_solve :=
  cbn [resets connects publishes] in *;
  repeat match goal with
  | |- _ ∧ _ => split
  | |- ∀ _, _ => intro
  | |- ¬ _ => intro
  | H : In _ _ |- _ => in_inv H
  | H : Ok _ = Ok _ |- _ => injection H as ?; subst
  end;
  first [ reflexivity | discriminate | congruence | by eauto ].

(** No call in the trace raised and the raw reading is small: a cycle that
    stopped early is excluded. *)
Ltac stopped_early Hok Hr :=
  exfalso;
  first
  [ match type of Hok with
    | ∀ ev, In ev ?evs → _ =>
        match evs with
        | context [cons ?ev0 _] =>
            let X := fresh in
            pose proof (Hok ev0 ltac:(cbn [In]; tauto)) as X; discriminate X
        end
    end
  | match type of Hr with
    | ∀ r, In (MoistureRead (Ok r)) _ → _ =>
        match goal with
        | Hm : moisture_to_scale (PyInt ?r0) = Error _ |- _ =>
            let X := fresh in
            pose proof (Hr r0 ltac:(cbn [In]; tauto)) as X;
            apply moisture_to_scale_small in X as [X _]; congruence
        end
    end ].

Section Claims.
Context {W : Type} (drv : drivers W).

(** C1. In a cycle in which the publish to [spruce.moisture] raises an
    [OSError], [spruce.temperature] is not published, [wifi.reset()] is
    called exactly once, and [last_updated] keeps its value: the script
    either goes on with the old value or ends by an exception of the
    reset itself. *)
Theorem moisture_publish_error v w x e :
  In (Publish "spruce.moisture" x (Error e)) (events (loop_body drv v w)) →
  is_OSError e = true →
  (∀ y r, ¬ In (Publish "spruce.temperature" y r) (events (loop_body drv v w)))
  ∧ resets (events (loop_body drv v w)) = 1%nat
  ∧ (∀ v', res (loop_body drv v w) = Ok v' → last_updated v' = last_updated v)
  ∧ (In (WifiReset (Ok ())) (events (loop_body drv v w)) →
     ∃ v', res (loop_body drv v w) = Ok v').
Proof.
  intros Hin He0.
  pose proof (loop_body_iteration drv v w) as H.
  cycle_cases H.
  all: trace_solve.
Qed.

(** C2 (as amended). After a cycle whose three publishes all succeed, the
    new [last_updated] is the value of a fresh [time.monotonic()] call made
    after the last publish returned: the last event of the cycle. *)
Theorem last_updated_after_success v w y :
  In (Publish "spruce.temperature" y (Ok ())) (events (loop_body drv v w)) →
  ∃ t_end pm evs,
    events (loop_body drv v w) =
      evs ++ [Publish "spruce.temperature" y (Ok ()); Print msg_sent;
              Monotonic t_end]
    ∧ res (loop_body drv v w) = Ok (Vars t_end pm).
Proof.
  intros Hin.
  pose proof (loop_body_iteration drv v w) as H.
  cycle_cases H.
  6: { exists t', (measured (plant_measurements v) l r c),
         [Monotonic t; Print msg_taking; Lux (Ok l); MoistureRead (Ok r);
          GetTemp (Ok c); Print msg_sending; Publish "sun" (sun_of l) (Ok ());
          Publish "spruce.moisture" (moist_of r) (Ok ())].
       in_inv Hin. split; reflexivity. }
  all: exfalso; trace_solve.
Qed.

(** C3. A poll enters the cycle exactly when
    [time.monotonic() - last_updated >= 60]. Otherwise it does nothing but
    read the clock. When the test holds the poll takes the measurements
    and goes on to publish: the sensors are read in order, and after three
    readings the publishes are attempted, beginning with [sun]; when no
    driver call raises (and the raw moisture has at most 53 bits) the
    whole cycle runs, with its three publishes. In particular the poll
    stays idle at an elapsed time of 59 and of 0, and runs the cycle at an
    elapsed time of exactly 60. *)
Theorem poll_is_due_iff v w :
  ∃ t evs,
    events (loop_body drv v w) = Monotonic t :: evs
    ∧ ((60 <=? t - last_updated v)%float = false →
       evs = [] ∧ res (loop_body drv v w) = Ok v)
    ∧ ((60 <=? t - last_updated v)%float = true →
       ∃ r evs', evs = Print msg_taking :: Lux r :: evs')
    ∧ ((t - last_updated v)%float = 59%float → evs = [])
    ∧ ((t - last_updated v)%float = 0%float → evs = [])
    ∧ ((t - last_updated v)%float = 60%float → evs ≠ [])
    ∧ ((60 <=? t - last_updated v)%float = true → runs_cycle evs)
    ∧ ((60 <=? t - last_updated v)%float = true →
       (∀ ev, In ev evs → raised ev = None) →
       (∀ r, In (MoistureRead (Ok r)) evs → Z.abs r < 2 ^ 53) →
       ∃ l r c t',
         evs = full_cycle l r c t'
         ∧ res (loop_body drv v w)
           = Ok (Vars t' (measured (plant_measurements v) l r c))).
Proof.
  pose proof (loop_body_iteration drv v w) as H.
  cycle_cases H; unfold due in Hdue; exists t; eexists; (split; [reflexivity|]).
  all: do 5 (split; [try congruence; eauto;
         try (intros E; rewrite E in Hdue; vm_compute in Hdue; discriminate)|]).
  all: split; [first [congruence | intros _; unfold runs_cycle; eauto 12]|].
  all: first [congruence | intros _ Hok Hr].
  all: try stopped_early Hok Hr.
  exists l, r, c, t'. split; reflexivity.
Qed.

(** C4. In every cycle the publishes go, in this order, to [sun],
    [spruce.moisture] and [spruce.temperature], with the converted light,
    moisture and temperature readings: the publish calls made are an
    initial part of that list, and the whole of it when none raises. For
    500 lux, 1000 raw and 22 degrees the values are about 46.45, 50.0 and
    71.6. *)
Theorem publish_order v w lux raw temp :
  In (Lux (Ok lux)) (events (loop_body drv v w)) →
  In (MoistureRead (Ok raw)) (events (loop_body drv v w)) →
  In (GetTemp (Ok temp)) (events (loop_body drv v w)) →
  (∃ sun moist fahr,
     lux_to_footcandle (PyFloat lux) = Ok sun
     ∧ moisture_to_scale (PyInt raw) = Ok moist
     ∧ cel_to_fahr (PyFloat temp) = Ok fahr
     ∧ (∃ n, publishes (events (loop_body drv v w)) =
             take n [("sun", sun); ("spruce.moisture", moist);
                     ("spruce.temperature", fahr)])
     ∧ ((∀ f x e, ¬ In (Publish f x (Error e)) (events (loop_body drv v w))) →
        publishes (events (loop_body drv v w)) =
          [("sun", sun); ("spruce.moisture", moist);
           ("spruce.temperature", fahr)]))
  ∧ lux_to_footcandle (PyFloat 500) = Ok (PyFloat 46.451133407655149)
  ∧ (46.445 <=? 46.451133407655149)%float = true
  ∧ (46.451133407655149 <? 46.455)%float = true
  ∧ moisture_to_scale (PyInt 1000) = Ok (PyFloat 50.0)
  ∧ cel_to_fahr (PyFloat 22) = Ok (PyFloat 71.6).
Proof.
  intros Hl Hr Hc.
  split; [|repeat split; vm_compute; reflexivity].
  exists (sun_of lux), (moist_of raw), (fahr_of temp).
  rewrite lux_to_footcandle_float, cel_to_fahr_float.
  pose proof (loop_body_iteration drv v w) as H.
  cycle_cases H; in_inv Hl; in_inv Hr; in_inv Hc.
  all: do 3 (split; [first [reflexivity|assumption]|]).
  all: cbn [publishes]; split;
    [ first [ by exists 3%nat | by exists 2%nat | by exists 1%nat | by exists 0%nat ]
    | intros Hno; first [ reflexivity | exfalso; eapply Hno; cbn [In]; repeat (first [left; reflexivity | right]) ] ].
Qed.

(** *** The loop as a whole *)

Lemma connects_app evs1 evs2 :
  connects (evs1 ++ evs2) = (connects evs1 + connects evs2)%nat.
Proof.
  induction evs1 as [|ev evs1 IH]; [reflexivity|].
  destruct ev; cbn [app connects]; rewrite IH; reflexivity.
Qed.

Lemma bind_events {A B} (m : M W A) (k : A → M W B) w :
  events ((m ≫= k) w) =
    events (m w) ++
    match res (m w) with
    | Ok a => events (k a (world (m w)))
    | Error _ => []
    end.
Proof.
  unfold mbind, m_mbind, m_bind.
  destruct (m w) as [[a|e] w' evs]; cbn [res world events].
  - destruct (k a w'); reflexivity.
  - rewrite app_nil_r. reflexivity.
Qed.

Lemma bind_res {A B} (m : M W A) (k : A → M W B) w :
  res ((m ≫= k) w) =
    match res (m w) with
    | Ok a => res (k a (world (m w)))
    | Error e => Error e
    end.
Proof.
  unfold mbind, m_mbind, m_bind.
  destruct (m w) as [[a|e] w' evs]; cbn [res world events]; [|reflexivity].
  destruct (k a w'); reflexivity.
Qed.

(** An exception that leaves an iteration ends the script: later
    iterations do not run. *)
Lemma run_loop_raise n v w e :
  res (loop_body drv v w) = Error e →
  res (run_loop drv (S n) v w) = Error e
  ∧ events (run_loop drv (S n) v w) = events (loop_body drv v w).
Proof.
  intros He. cbn [run_loop]. rewrite bind_res, bind_events, He.
  split; [reflexivity|apply app_nil_r].
Qed.

Lemma loop_body_no_connect v w : connects (events (loop_body drv v w)) = 0%nat.
Proof.
  pose proof (loop_body_iteration drv v w) as H.
  cycle_cases H; reflexivity.
Qed.

Lemma run_loop_no_connect n v w :
  connects (events (run_loop drv n v w)) = 0%nat.
Proof.
  revert v w. induction n as [|n IH]; intros v w; [reflexivity|].
  cbn [run_loop]. rewrite bind_events, connects_app, loop_body_no_connect.
  destruct (res (loop_body drv v w)); [apply IH|reflexivity].
Qed.

Lemma startup_connects w :
  (connects (events (startup drv w)) ≤ 1)%nat
  ∧ (∀ v, res (startup drv w) = Ok v → connects (events (startup drv w)) = 1%nat).
Proof.
  unfold_startup.
  repeat startup_step; (split; [cbn; lia|first [discriminate|reflexivity]]).
Qed.

Lemma startup_returns w v0 t0 evs0 :
  res (startup drv w) = Ok v0 →
  events (startup drv w) = evs0 ++ [Monotonic t0] →
  v0 = Vars (t0 - 60)%float plant_measurements_init.
Proof.
  unfold_startup. repeat startup_step; try discriminate.
  intros [= <-] E.
  match type of E with
  | ?l = _ => change l with (removelast l ++ [List.last l (Print "")]) in E
  end.
  apply app_inj_tail in E as [_ [= ->]]. reflexivity.
Qed.

(** C8. An exception raised by any of the three sensor reads, whatever its
    class, is not caught: it leaves the iteration and ends the script with
    nothing published and no reset. The handler runs only for an
    [OSError] raised by a publish. *)
Theorem sensor_error_is_fatal v w e :
  In (Lux (Error e)) (events (loop_body drv v w))
  ∨ In (MoistureRead (Error e)) (events (loop_body drv v w))
  ∨ In (GetTemp (Error e)) (events (loop_body drv v w)) →
  res (loop_body drv v w) = Error e
  ∧ publishes (events (loop_body drv v w)) = []
  ∧ resets (events (loop_body drv v w)) = 0%nat
  ∧ (∀ n, res (run_loop drv (S n) v w) = Error e
          ∧ events (run_loop drv (S n) v w) = events (loop_body drv v w))
  ∧ (resets (events (loop_body drv v w)) ≠ 0%nat →
     ∃ f x e', In (Publish f x (Error e')) (events (loop_body drv v w))
               ∧ is_OSError e' = true).
Proof.
  intros Hin.
  assert (res (loop_body drv v w) = Error e
          ∧ publishes (events (loop_body drv v w)) = []
          ∧ resets (events (loop_body drv v w)) = 0%nat) as (Hres & Hp & Hr).
  { pose proof (loop_body_iteration drv v w) as H.
    cycle_cases H; destruct Hin as [Hin|[Hin|Hin]]; in_inv Hin;
      repeat split; reflexivity. }
  repeat split; try assumption.
  - apply run_loop_raise; assumption.
  - eapply run_loop_raise; eassumption.
  - intros Hne. rewrite Hr in Hne. congruence.
Qed.

(** C10. Only an [OSError] raised by a publish is handled: any other
    exception leaves the iteration, with no reset. The handler prints and
    calls [wifi.reset()], nothing else: [io.connect()] is never called
    from the loop, so over the whole run it is called at most once, and
    exactly once when the start-up completes. *)
Theorem recovery_is_reset_only v w feed x e :
  In (Publish feed x (Error e)) (events (loop_body drv v w)) →
  (is_OSError e = false →
     res (loop_body drv v w) = Error e
     ∧ resets (events (loop_body drv v w)) = 0%nat)
  ∧ (is_OSError e = true →
     ∃ evs rr, events (loop_body drv v w) =
       evs ++ [Publish feed x (Error e); Print (msg_failed e); WifiReset rr])
  ∧ connects (events (loop_body drv v w)) = 0%nat
  ∧ (∀ n w0, (connects (events (main drv n w0)) ≤ 1)%nat)
  ∧ (∀ n w0 v0, res (startup drv w0) = Ok v0 →
       connects (events (main drv n w0)) = 1%nat).
Proof.
  intros Hin.
  assert (∀ n w0, connects (events (main drv n w0)) =
                  connects (events (startup drv w0))) as Hmain.
  { intros n w0. unfold main. rewrite bind_events, connects_app.
    destruct (res (startup drv w0)); [rewrite run_loop_no_connect|]; cbn; lia. }
  split; [|split; [|split; [apply loop_body_no_connect|split]]].
  - intros Hcls. pose proof (loop_body_iteration drv v w) as H.
    cycle_cases H; in_inv Hin; try congruence; split; reflexivity.
  - intros Hcls. pose proof (loop_body_iteration drv v w) as H.
    cycle_cases H; in_inv Hin; try congruence.
    all: first [ by eexists [_; _; _; _; _; _], _
               | by eexists [_; _; _; _; _; _; _], _
               | by eexists [_; _; _; _; _; _; _; _], _ ].
  - intros n w0. rewrite Hmain. apply startup_connects.
  - intros n w0 v0 Hv0. rewrite Hmain. eapply startup_connects, Hv0.
Qed.

(** C9. The start-up sets [last_updated] to the clock reading less 60, so
    the first poll already passes the interval test and the first cycle
    runs at once, with no wait of 60 seconds: the measurements are taken
    and the publishes attempted, and when no driver call raises the whole
    cycle runs, with its three publishes. The clock is taken to be what
    [time.monotonic()] is: not negative, not going back, and below
    [2 ^ 55] seconds; the two subtractions are binary64 subtractions. *)
Theorem first_poll_after_startup w v0 t0 evs0 w1 t1 evs1 :
  res (startup drv w) = Ok v0 →
  events (startup drv w) = evs0 ++ [Monotonic t0] →
  events (loop_body drv v0 w1) = Monotonic t1 :: evs1 →
  (0 <=? t0)%float = true → (t0 <? 0x1p55)%float = true →
  (t0 <=? t1)%float = true →
  v0 = Vars (t0 - 60)%float plant_measurements_init
  ∧ (60 <=? t1 - last_updated v0)%float = true
  ∧ runs_cycle evs1
  ∧ ((∀ ev, In ev evs1 → raised ev = None) →
     (∀ r, In (MoistureRead (Ok r)) evs1 → Z.abs r < 2 ^ 53) →
     ∃ l r c t',
       evs1 = full_cycle l r c t'
       ∧ res (loop_body drv v0 w1)
         = Ok (Vars t' (measured plant_measurements_init l r c))).
Proof.
  intros Hres Hev E H0 Hb H01.
  pose proof (startup_returns _ _ _ _ Hres Hev) as ->.
  pose proof (first_poll_due t0 t1 H0 Hb H01) as Hdue1.
  split; [reflexivity|]. split; [exact Hdue1|].
  revert E.
  pose proof (loop_body_iteration drv
                (Vars (t0 - 60)%float plant_measurements_init) w1) as H.
  cycle_cases H; intros E; injection E as E1 E2; subst;
    unfold due in Hdue; cbn [last_updated] in Hdue; try congruence.
  all: split; [unfold runs_cycle; eauto 12|].
  all: intros Hok Hr.
  all: try stopped_early Hok Hr.
  exists l, r, c, t'. split; reflexivity.
Qed.

(** ** Further properties of the script *)

Ltac split_last :=
  match goal with
  | |- ∃ evs ev, ?l = evs ++ [ev] ∧ _ =>
      exists (removelast l), (List.last l (Print "")); split; reflexivity
  end.

Lemma startup_raised w e :
  res (startup drv w) = Error e →
  (∃ evs ev, events (startup drv w) = evs ++ [ev] ∧ raised ev = Some e)
  ∨ (exn_cls e = KeyError
     ∧ clock_reads (events (startup drv w)) = 0%nat
     ∧ (secrets drv !! "aio_username" = None
        ∨ secrets drv !! "aio_key" = None)).
Proof.
  unfold_startup.
  repeat startup_step; intros E; try discriminate E; injection E as <-;
    first [ left; split_last | right; cbn; auto ].
Qed.

Lemma moisture_error r e :
  moisture_to_scale (PyInt r) = Error e →
  exn_cls e = OverflowError ∧ 2 ^ 53 ≤ Z.abs r.
Proof.
  destruct (moisture_to_scale_cases r) as [->|(msg & -> & Hr)];
    [discriminate|]. intros [= <-]. split; [reflexivity|exact Hr].
Qed.

Lemma loop_body_raised v w e :
  res (loop_body drv v w) = Error e →
  (∃ evs ev, events (loop_body drv v w) = evs ++ [ev] ∧ raised ev = Some e)
  ∨ (exn_cls e = OverflowError
     ∧ ∃ evs r, events (loop_body drv v w) = evs ++ [MoistureRead (Ok r)]
                ∧ 2 ^ 53 ≤ Z.abs r).
Proof.
  pose proof (loop_body_iteration drv v w) as H.
  cycle_cases H; intros E; try discriminate E; injection E as <-;
    try (left; split_last).
  right. apply moisture_error in Hm as [Hc Hr]. split; [exact Hc|].
  exists [Monotonic t; Print msg_taking; Lux (Ok l)], r.
  split; [reflexivity|exact Hr].
Qed.

Lemma run_loop_raised n v w e :
  res (run_loop drv n v w) = Error e →
  (∃ evs ev, events (run_loop drv n v w) = evs ++ [ev] ∧ raised ev = Some e)
  ∨ (exn_cls e = OverflowError
     ∧ ∃ evs r, events (run_loop drv n v w) = evs ++ [MoistureRead (Ok r)]
                ∧ 2 ^ 53 ≤ Z.abs r).
Proof.
  revert v w. induction n as [|n IH]; intros v w; [discriminate|].
  cbn [run_loop]. rewrite bind_res, bind_events.
  destruct (res (loop_body drv v w)) as [v'|e'] eqn:E.
  - intros H.
    destruct (IH _ _ H) as [(evs & ev & -> & Hev)|(Hc & evs & r & -> & Hr)].
    + left. exists (events (loop_body drv v w) ++ evs), ev.
      rewrite app_assoc. split; [reflexivity|assumption].
    + right. split; [exact Hc|].
      exists (events (loop_body drv v w) ++ evs), r.
      rewrite app_assoc. split; [reflexivity|assumption].
  - intros [= <-]. rewrite app_nil_r. apply loop_body_raised, E.
Qed.

(** X1. An exception at start-up ends the script at once: nothing of the
    loop runs. The start-up fails in one of the following ways, each
    leaving the later steps undone. After a failed [wifi.connect()] there
    is no ["Connected!"]; a missing entry of [secrets] raises a [KeyError]
    before [MQTT.MQTT] is called; no failure before [io.connect()] prints
    ["Connecting to Adafruit IO..."]; and after a failed [io.connect()]
    the clock is not read. *)
Theorem startup_error_is_fatal n w e :
  res (startup drv w) = Error e →
  res (main drv n w) = Error e
  ∧ events (main drv n w) = events (startup drv w)
  ∧ (events (startup drv w) = [SetupDevices (Error e)]
     ∨ events (startup drv w) =
         [SetupDevices (Ok ()); Print "Connecting to WiFi...";
          WifiConnect (Error e)]
     ∨ events (startup drv w) = wifi_up ++ [MqttSetSocket (Error e)]
     ∨ (events (startup drv w) = wifi_up ++ [MqttSetSocket (Ok ())]
        ∧ ((e = Exn KeyError "aio_username"
            ∧ secrets drv !! "aio_username" = None)
           ∨ (e = Exn KeyError "aio_key"
              ∧ secrets drv !! "aio_key" = None)))
     ∨ (∃ u p, events (startup drv w) =
          wifi_up ++ [MqttSetSocket (Ok ()); MqttClient u p (Error e)])
     ∨ (∃ u p, events (startup drv w) =
          wifi_up ++ [MqttSetSocket (Ok ()); MqttClient u p (Ok ());
                      IoMqtt (Error e)])
     ∨ (∃ u p, events (startup drv w) =
          wifi_up ++ [MqttSetSocket (Ok ()); MqttClient u p (Ok ());
                      IoMqtt (Ok ()); Print "Connecting to Adafruit IO...";
                      IoConnect (Error e)])).
Proof.
  intros H. unfold main. rewrite bind_res, bind_events, H, app_nil_r.
  split; [reflexivity|]. split; [reflexivity|].
  revert H. unfold wifi_up. unfold_startup.
  repeat startup_step; intros E; try discriminate E; injection E as <-;
    cbn [app]; eauto 12.
Qed.

(** X2. Which exceptions can end a run. The script itself raises in two
    places only: the lookup of an entry that [secrets] lacks, a [KeyError]
    during start-up, before the clock is read; and the division of a raw
    moisture reading of more than 53 bits, an [OverflowError]. Every other
    exception that ends a run is the outcome of the last driver call of
    the trace: no lookup in [plant_measurements], no unit conversion and
    no other arithmetic of the script fails. *)
Theorem exceptions_ending_a_run n w e :
  res (main drv n w) = Error e →
  (∃ evs ev, events (main drv n w) = evs ++ [ev] ∧ raised ev = Some e)
  ∨ (exn_cls e = KeyError
     ∧ clock_reads (events (main drv n w)) = 0%nat
     ∧ (secrets drv !! "aio_username" = None
        ∨ secrets drv !! "aio_key" = None))
  ∨ (exn_cls e = OverflowError
     ∧ ∃ evs r, events (main drv n w) = evs ++ [MoistureRead (Ok r)]
                ∧ 2 ^ 53 ≤ Z.abs r).
Proof.
  unfold main. rewrite bind_res, bind_events.
  destruct (res (startup drv w)) as [v|e'] eqn:E.
  - intros H.
    destruct (run_loop_raised _ _ _ _ H)
      as [(evs & ev & -> & Hev)|(Hc & evs & r & -> & Hr)].
    + left. exists (events (startup drv w) ++ evs), ev.
      rewrite app_assoc. split; [reflexivity|assumption].
    + right; right. split; [exact Hc|].
      exists (events (startup drv w) ++ evs), r.
      rewrite app_assoc. split; [reflexivity|assumption].
  - intros [= <-]. rewrite app_nil_r.
    destruct (startup_raised _ _ E) as [H|H]; [left|right; left]; exact H.
Qed.

Lemma three_floats_init : three_floats plant_measurements_init.
Proof.
  unfold three_floats, plant_measurements_init, measurement_keys. split.
  - rewrite !dom_insert_L, dom_empty_L. set_solver.
  - repeat apply map_Forall_insert_2; try reflexivity. apply map_Forall_empty.
Qed.

Lemma three_floats_measured pm l r c :
  three_floats pm → three_floats (measured pm l r c).
Proof.
  unfold three_floats, measured, measurement_keys. intros [Hd Hf]. split.
  - rewrite !dom_insert_L, Hd. set_solver.
  - destruct (moist_of_float r) as [x ->].
    repeat apply map_Forall_insert_2; try reflexivity. assumption.
Qed.

Lemma loop_body_three_floats v w v' :
  res (loop_body drv v w) = Ok v' →
  three_floats (plant_measurements v) → three_floats (plant_measurements v').
Proof.
  pose proof (loop_body_iteration drv v w) as H.
  cycle_cases H; intros E; try discriminate E; injection E as <-;
    cbn [plant_measurements]; auto using three_floats_measured.
Qed.

Lemma run_loop_three_floats n v w v' :
  res (run_loop drv n v w) = Ok v' →
  three_floats (plant_measurements v) → three_floats (plant_measurements v').
Proof.
  revert v w. induction n as [|n IH]; intros v w.
  - intros [= <-]. trivial.
  - cbn [run_loop]. rewrite bind_res.
    destruct (res (loop_body drv v w)) as [v1|] eqn:E; [|discriminate].
    intros H Hv. eapply IH; [exact H|]. eapply loop_body_three_floats; eauto.
Qed.

Lemma startup_three_floats w v :
  res (startup drv w) = Ok v → three_floats (plant_measurements v).
Proof.
  unfold_startup. repeat startup_step; try discriminate.
  intros [= <-]. apply three_floats_init.
Qed.

(** X3. Through any number of iterations [plant_measurements] keeps exactly
    its three keys, each holding a float: the cycle overwrites entries and
    never adds or removes one, so each of the three lookups of the publish
    calls finds a float. *)
Theorem measurements_stay_three_floats n w v :
  res (main drv n w) = Ok v →
  three_floats (plant_measurements v)
  ∧ ∀ key, key ∈ measurement_keys →
      ∃ f, py_getitem (plant_measurements v) key = Ok (PyFloat f).
Proof.
  unfold main. rewrite bind_res.
  destruct (res (startup drv w)) as [v0|] eqn:E; [|discriminate].
  intros H.
  assert (three_floats (plant_measurements v)) as Hv.
  { eapply run_loop_three_floats; [exact H|]. eapply startup_three_floats, E. }
  split; [exact Hv|].
  intros key Hkey. destruct Hv as [Hd Hf]. rewrite <- Hd in Hkey.
  apply elem_of_dom in Hkey as [x Hx]. unfold py_getitem. rewrite Hx.
  specialize (Hf _ _ Hx). destruct x; try discriminate Hf. eauto.
Qed.

(** X4. What was published is what the dictionary holds: after an
    iteration that returns, every value passed to [io.publish] is the
    entry of [plant_measurements] that belongs to the feed, and no other
    feed is published to. *)
Theorem published_is_stored v w v' feed val o :
  res (loop_body drv v w) = Ok v' →
  In (Publish feed val o) (events (loop_body drv v w)) →
  (feed = "sun" ∧ plant_measurements v' !! "sunlight" = Some val)
  ∨ (feed = "spruce.moisture" ∧ plant_measurements v' !! "moisture" = Some val)
  ∨ (feed = "spruce.temperature"
     ∧ plant_measurements v' !! "temperature" = Some val).
Proof.
  pose proof (loop_body_iteration drv v w) as H.
  cycle_cases H; intros E Hin; try discriminate E; injection E as <-;
    in_inv Hin; cbn [plant_measurements]; unfold measured;
    first [ left; split; [reflexivity|by simplify_map_eq]
          | right; left; split; [reflexivity|by simplify_map_eq]
          | right; right; split; [reflexivity|by simplify_map_eq] ].
Qed.

(** X5. An exception raised by [wifi.reset()] inside the handler is not
    handled, whatever its class: it leaves the iteration and ends the
    script. The reset is tried once and [last_updated] is not written. *)
Theorem reset_error_is_fatal v w e :
  In (WifiReset (Error e)) (events (loop_body drv v w)) →
  res (loop_body drv v w) = Error e
  ∧ resets (events (loop_body drv v w)) = 1%nat
  ∧ clock_reads (events (loop_body drv v w)) = 1%nat
  ∧ ∀ n, res (run_loop drv (S n) v w) = Error e
         ∧ events (run_loop drv (S n) v w) = events (loop_body drv v w).
Proof.
  intros Hin.
  assert (res (loop_body drv v w) = Error e
          ∧ resets (events (loop_body drv v w)) = 1%nat
          ∧ clock_reads (events (loop_body drv v w)) = 1%nat) as (Hres & Hr & Hc).
  { pose proof (loop_body_iteration drv v w) as H.
    cycle_cases H; in_inv Hin; repeat split; reflexivity. }
  repeat split; try assumption; eapply run_loop_raise; eassumption.
Qed.

(** *** The interval test in binary64 arithmetic *)

(** X6. A poll that reads the very clock value recorded in [last_updated]
    does nothing, whatever that value is: the difference is zero, or not a
    number, and never reaches 60. *)
Theorem poll_at_recorded_time_is_idle v w t0 evs0 :
  events (loop_body drv v w) = Monotonic t0 :: evs0 →
  t0 = last_updated v →
  evs0 = [] ∧ res (loop_body drv v w) = Ok v.
Proof.
  pose proof (loop_body_iteration drv v w) as H.
  cycle_cases H; intros E ->; injection E as E1 E2;
    unfold due in Hdue; rewrite E1, sub_same_not_due in Hdue;
    try discriminate Hdue.
  split; [symmetry; exact E2|reflexivity].
Qed.

(** X7. The first poll runs the first cycle at once: when the clock read
    at start-up is not negative and below [2 ^ 55] s, and the clock read by
    the first poll is not earlier, the first poll takes the measurements.
    Subtracting 60 and then subtracting the result from the later reading
    loses less than the interval test needs. *)
Theorem first_poll_runs_at_once w v0 t0 evs0 w1 t1 evs1 :
  res (startup drv w) = Ok v0 →
  events (startup drv w) = evs0 ++ [Monotonic t0] →
  events (loop_body drv v0 w1) = Monotonic t1 :: evs1 →
  (0 <=? t0)%float = true → (t0 <? 0x1p55)%float = true →
  (t0 <=? t1)%float = true →
  ∃ r evs, evs1 = Print msg_taking :: Lux r :: evs.
Proof.
  intros Hres Hev E H0 Hb H01.
  rewrite (startup_returns _ _ _ _ Hres Hev) in E.
  pose proof (first_poll_due t0 t1 H0 Hb H01) as Hdue1.
  revert E.
  pose proof (loop_body_iteration drv
                (Vars (t0 - 60)%float plant_measurements_init) w1) as H.
  cycle_cases H; intros E; injection E as E1 E2; subst;
    unfold due in Hdue; cbn [last_updated] in Hdue; try congruence; eauto.
Qed.

(** X8. A handled publish failure is retried without waiting: the handler
    leaves [last_updated] alone, so at the next poll, if the clock has not
    gone back, the interval test holds again and the measurements are
    taken afresh. *)
Theorem failed_cycle_is_retried v w v1 feed val e t1 evs1 w2 t2 evs2 :
  In (Publish feed val (Error e)) (events (loop_body drv v w)) →
  res (loop_body drv v w) = Ok v1 →
  events (loop_body drv v w) = Monotonic t1 :: evs1 →
  events (loop_body drv v1 w2) = Monotonic t2 :: evs2 →
  (t1 <=? t2)%float = true →
  last_updated v1 = last_updated v
  ∧ ∃ r evs, evs2 = Print msg_taking :: Lux r :: evs.
Proof.
  intros Hin Hres E1 E2 H12.
  assert (last_updated v1 = last_updated v ∧ due t1 v = true) as [Hlu Hdue1].
  { pose proof (loop_body_iteration drv v w) as H.
    cycle_cases H; in_inv Hin; try discriminate Hres;
      injection Hres as <-; injection E1 as <- _; split; trivial. }
  split; [exact Hlu|].
  assert (due t2 v1 = true) as Hdue2.
  { unfold due in *. rewrite Hlu. eapply due_monotone; eassumption. }
  revert E2. pose proof (loop_body_iteration drv v1 w2) as H.
  cycle_cases H; intros E; injection E as E3 E4; subst;
    try congruence; eauto.
Qed.

(** X9. The interval test, in exact arithmetic: for finite clock readings
    the cycle starts exactly when the exact difference of the reading and
    [last_updated] is at least [60 - 2 ^ -48] s. Rounding can let a cycle
    start that much early, and never makes it start late. *)
Theorem interval_test_in_exact_arithmetic v w t0 evs0 :
  events (loop_body drv v w) = Monotonic t0 :: evs0 →
  SFfinite (Prim2SF t0) = true →
  SFfinite (Prim2SF (last_updated v)) = true →
  evs0 ≠ [] ↔ due_units ≤ SF2Z (Prim2SF t0) - SF2Z (Prim2SF (last_updated v)).
Proof.
  intros E Ft Fu.
  assert (due t0 v = true ↔
          due_units ≤ SF2Z (Prim2SF t0) - SF2Z (Prim2SF (last_updated v))) as <-.
  { unfold due. rewrite leb_spec, sub_spec, Prim2SF_60.
    apply SF64sub_due; try assumption; try apply Prim2SF_valid.
    rewrite <- sub_spec. apply Prim2SF_valid. }
  revert E. pose proof (loop_body_iteration drv v w) as H.
  cycle_cases H; intros E; injection E as E1 E2; subst;
    split; congruence.
Qed.

(** *** The moisture scale on the range of the sensor *)

Lemma all_from_spec n r0 p r :
  all_from n r0 p = true → r0 ≤ r < r0 + Z.of_nat n → p r = true.
Proof.
  revert r0. induction n as [|n IH]; intros r0 H Hr; [lia|].
  cbn [all_from] in H. apply andb_prop in H as [H0 H1].
  destruct (Z.eq_dec r r0) as [->|]; [exact H0|].
  apply (IH (r0 + 1)); [exact H1|lia].
Qed.

Lemma scaled_in_range_all : all_from 1801 200 scaled_in_range = true.
Proof. vm_compute. reflexivity. Qed.

Lemma scaled_increases_all : all_from 1800 200 scaled_increases = true.
Proof. vm_compute. reflexivity. Qed.

Lemma ltb_trans (x y z : float) :
  (x <? y)%float = true → (y <? z)%float = true → (x <? z)%float = true.
Proof.
  rewrite !ltb_spec.
  pose proof (Prim2SF_valid x) as Vx. pose proof (Prim2SF_valid y) as Vy.
  pose proof (Prim2SF_valid z) as Vz. revert Vx Vy Vz.
  generalize (Prim2SF x) (Prim2SF y) (Prim2SF z). clear x y z.
  intros x y z Vx Vy Vz. unfold SFltb.
  destruct (SFfinite x) eqn:Fx, (SFfinite y) eqn:Fy, (SFfinite z) eqn:Fz.
  1: { rewrite !SFcompare_finite by assumption.
       destruct (Z.compare_spec (SF2Z x) (SF2Z y)); try discriminate.
       destruct (Z.compare_spec (SF2Z y) (SF2Z z)); try discriminate.
       destruct (Z.compare_spec (SF2Z x) (SF2Z z)); try reflexivity; lia. }
  all: destruct x as [?|[]| |? ? ?]; try discriminate Fx;
       destruct y as [?|[]| |? ? ?]; try discriminate Fy;
       destruct z as [?|[]| |? ? ?]; try discriminate Fz;
       try reflexivity; try discriminate.
  all: intros H1 H2; first [discriminate H1|discriminate H2|reflexivity|idtac].
Qed.

(** X10. On the range the sensor is documented to return, 200 to 2000, the
    scaled moisture lies between 10.0 and 100.0, and a larger raw reading
    gives a strictly larger scaled value: no two readings collapse. *)
Theorem moisture_scale_on_sensor_range r1 r2 :
  200 ≤ r1 → r1 < r2 → r2 ≤ 2000 →
  ∃ x1 x2,
    moisture_to_scale (PyInt r1) = Ok (PyFloat x1)
    ∧ moisture_to_scale (PyInt r2) = Ok (PyFloat x2)
    ∧ (10 <=? x1)%float = true
    ∧ (x1 <? x2)%float = true
    ∧ (x2 <=? 100)%float = true.
Proof.
  intros H1 H12 H2.
  assert (∀ r, 200 ≤ r ≤ 2000 →
            moisture_to_scale (PyInt r) = Ok (PyFloat (float_of_int r / 20))
            ∧ moist_of r = PyFloat (float_of_int r / 20)) as Hsmall
    by (intros r Hr; apply moisture_to_scale_small; lia).
  destruct (Hsmall r1 ltac:(lia)) as [E1 M1].
  destruct (Hsmall r2 ltac:(lia)) as [E2 M2].
  rewrite E1, E2. eexists _, _. split; [reflexivity|]. split; [reflexivity|].
  pose proof (all_from_spec _ _ _ r1 scaled_in_range_all ltac:(lia)) as Hr1.
  pose proof (all_from_spec _ _ _ r2 scaled_in_range_all ltac:(lia)) as Hr2.
  unfold scaled_in_range in Hr1, Hr2. rewrite M1 in Hr1. rewrite M2 in Hr2.
  apply andb_prop in Hr1 as [Hlo _]. apply andb_prop in Hr2 as [_ Hhi].
  split; [exact Hlo|]. split; [|exact Hhi].
  clear E1 E2 M1 M2 Hlo Hhi. revert H2.
  pattern r2. apply (Zlt_lower_bound_ind _ (r1 + 1)); [|lia].
  intros r IH Hr Hr'.
  pose proof (all_from_spec _ _ _ (r - 1) scaled_increases_all ltac:(lia)) as Hs.
  unfold scaled_increases in Hs.
  replace (r - 1 + 1) with r in Hs by lia.
  rewrite (proj2 (Hsmall (r - 1) ltac:(lia))),
    (proj2 (Hsmall r ltac:(lia))) in Hs.
  destruct (Z.eq_dec r (r1 + 1)) as [->|].
  - replace (r1 + 1 - 1) with r1 in Hs by lia. exact Hs.
  - eapply ltb_trans; [|exact Hs]. apply IH; lia.
Qed.

(** *** Resets over a whole run *)

Lemma resets_app evs1 evs2 :
  resets (evs1 ++ evs2) = (resets evs1 + resets evs2)%nat.
Proof.
  induction evs1 as [|ev evs1 IH]; [reflexivity|].
  destruct ev; cbn [app resets]; rewrite IH; reflexivity.
Qed.

Lemma oserror_publishes_app evs1 evs2 :
  oserror_publishes (evs1 ++ evs2)
  = (oserror_publishes evs1 + oserror_publishes evs2)%nat.
Proof.
  induction evs1 as [|ev evs1 IH]; [reflexivity|].
  destruct ev as [| | | | | | | |? ? [|]| | | |];
    cbn [app oserror_publishes]; rewrite IH; lia.
Qed.

Lemma loop_body_resets v w :
  resets (events (loop_body drv v w))
  = oserror_publishes (events (loop_body drv v w)).
Proof.
  pose proof (loop_body_iteration drv v w) as H.
  cycle_cases H; cbn [resets oserror_publishes]; rewrite ?He; reflexivity.
Qed.

Lemma run_loop_resets n v w :
  resets (events (run_loop drv n v w))
  = oserror_publishes (events (run_loop drv n v w)).
Proof.
  revert v w. induction n as [|n IH]; intros v w; [reflexivity|].
  cbn [run_loop]. rewrite bind_events, resets_app, oserror_publishes_app.
  rewrite loop_body_resets.
  destruct (res (loop_body drv v w)); [rewrite IH|]; reflexivity.
Qed.

Lemma startup_resets w :
  resets (events (startup drv w)) = 0%nat
  ∧ oserror_publishes (events (startup drv w)) = 0%nat.
Proof. unfold_startup. repeat startup_step; split; reflexivity. Qed.

(** X11. Over a whole run [wifi.reset()] is called exactly as many times
    as a publish raised an [OSError]: every such failure is followed by a
    reset, and nothing else causes one. *)
Theorem resets_match_failed_publishes n w :
  resets (events (main drv n w)) = oserror_publishes (events (main drv n w)).
Proof.
  unfold main. rewrite bind_events, resets_app, oserror_publishes_app.
  destruct (startup_resets w) as [-> ->].
  destruct (res (startup drv w)); [apply run_loop_resets|reflexivity].
Qed.

(** X12. The converters and the moisture scaling fail on a value that is
    not a number: [None] or a string raises a [TypeError], nothing else. *)
Theorem converters_reject_non_numbers x :
  is_number x = false →
  ∃ m1 m2 m3,
    cel_to_fahr x = Error (Exn TypeError m1)
    ∧ lux_to_footcandle x = Error (Exn TypeError m2)
    ∧ moisture_to_scale x = Error (Exn TypeError m3).
Proof.
  destruct x; try discriminate; intros _;
    eexists _, _, _; repeat split; reflexivity.
Qed.
End Claims.

(** ** The claims on the scenarios *)

Ltac in_trace := vm_compute; repeat (first [left; reflexivity | right]).

Lemma moisture_publish_error_witness :
  (∀ y r, ¬ In (Publish "spruce.temperature" y r)
              (events (loop_body scripted v_1000 w_moisture_unsent)))
  ∧ resets (events (loop_body scripted v_1000 w_moisture_unsent)) = 1%nat
  ∧ (∀ v', res (loop_body scripted v_1000 w_moisture_unsent) = Ok v' →
           last_updated v' = last_updated v_1000)
  ∧ (In (WifiReset (Ok ())) (events (loop_body scripted v_1000 w_moisture_unsent)) →
     ∃ v', res (loop_body scripted v_1000 w_moisture_unsent) = Ok v').
Proof.
  apply (moisture_publish_error scripted v_1000 w_moisture_unsent
           (PyFloat 50) transport_error).
  - in_trace.
  - reflexivity.
Defined.

(** C2, as the specification states it, fails: the clock reads 1060 when
    the interval test passes and 1063 after the third publish, and the
    script records 1063. *)
Lemma last_updated_is_not_start_time :
  ¬ (∀ (v : vars) (w : script) t evs y v',
       events (loop_body scripted v w) = Monotonic t :: evs →
       In (Publish "spruce.temperature" y (Ok ())) evs →
       res (loop_body scripted v w) = Ok v' →
       last_updated v' = t).
Proof.
  intros H.
  assert (events (loop_body scripted v_1000 w_all_sent) =
          Monotonic 1060 :: tl (events (loop_body scripted v_1000 w_all_sent)))
    as Hev by (vm_compute; reflexivity).
  assert (In (Publish "spruce.temperature" (PyFloat 71.6) (Ok ()))
            (tl (events (loop_body scripted v_1000 w_all_sent))))
    as Hin by in_trace.
  assert (res (loop_body scripted v_1000 w_all_sent) =
          Ok (Vars 1063 (measured plant_measurements_init 500 1000 22)))
    as Hres by (vm_compute; reflexivity).
  pose proof (H _ _ _ _ _ _ Hev Hin Hres) as E. cbn in E.
  apply (f_equal (λ x, (x =? 1060)%float)) in E.
  vm_compute in E. discriminate E.
Qed.

Lemma last_updated_after_success_witness :
  ∃ t_end pm evs,
    events (loop_body scripted v_1000 w_all_sent) =
      evs ++ [Publish "spruce.temperature" (PyFloat 71.6) (Ok ());
              Print msg_sent; Monotonic t_end]
    ∧ res (loop_body scripted v_1000 w_all_sent) = Ok (Vars t_end pm).
Proof.
  apply (last_updated_after_success scripted v_1000 w_all_sent (PyFloat 71.6)).
  in_trace.
Defined.

Lemma publish_order_witness :
  (∃ sun moist fahr,
     lux_to_footcandle (PyFloat 500) = Ok sun
     ∧ moisture_to_scale (PyInt 1000) = Ok moist
     ∧ cel_to_fahr (PyFloat 22) = Ok fahr
     ∧ (∃ n, publishes (events (loop_body scripted v_1000 w_all_sent)) =
             take n [("sun", sun); ("spruce.moisture", moist);
                     ("spruce.temperature", fahr)])
     ∧ ((∀ f x e, ¬ In (Publish f x (Error e))
                      (events (loop_body scripted v_1000 w_all_sent))) →
        publishes (events (loop_body scripted v_1000 w_all_sent)) =
          [("sun", sun); ("spruce.moisture", moist);
           ("spruce.temperature", fahr)]))
  ∧ lux_to_footcandle (PyFloat 500) = Ok (PyFloat 46.451133407655149)
  ∧ (46.445 <=? 46.451133407655149)%float = true
  ∧ (46.451133407655149 <? 46.455)%float = true
  ∧ moisture_to_scale (PyInt 1000) = Ok (PyFloat 50.0)
  ∧ cel_to_fahr (PyFloat 22) = Ok (PyFloat 71.6).
Proof.
  apply (publish_order scripted v_1000 w_all_sent 500 1000 22); in_trace.
Defined.

Lemma sensor_error_is_fatal_witness :
  res (loop_body scripted v_1000 w_sensor_down) = Error sensor_error
  ∧ publishes (events (loop_body scripted v_1000 w_sensor_down)) = []
  ∧ resets (events (loop_body scripted v_1000 w_sensor_down)) = 0%nat
  ∧ (∀ n, res (run_loop scripted (S n) v_1000 w_sensor_down) = Error sensor_error
          ∧ events (run_loop scripted (S n) v_1000 w_sensor_down) =
            events (loop_body scripted v_1000 w_sensor_down))
  ∧ (resets (events (loop_body scripted v_1000 w_sensor_down)) ≠ 0%nat →
     ∃ f x e', In (Publish f x (Error e'))
                 (events (loop_body scripted v_1000 w_sensor_down))
               ∧ is_OSError e' = true).
Proof.
  apply (sensor_error_is_fatal scripted v_1000 w_sensor_down sensor_error).
  right; left. in_trace.
Defined.

Lemma recovery_is_reset_only_witness :
  (is_OSError broker_error = false →
     res (loop_body scripted v_1000 w_broker_down) = Error broker_error
     ∧ resets (events (loop_body scripted v_1000 w_broker_down)) = 0%nat)
  ∧ (is_OSError broker_error = true →
     ∃ evs rr, events (loop_body scripted v_1000 w_broker_down) =
       evs ++ [Publish "spruce.moisture" (PyFloat 50) (Error broker_error);
               Print (msg_failed broker_error); WifiReset rr])
  ∧ connects (events (loop_body scripted v_1000 w_broker_down)) = 0%nat
  ∧ (∀ n w0, (connects (events (main scripted n w0)) ≤ 1)%nat)
  ∧ (∀ n w0 v0, res (startup scripted w0) = Ok v0 →
       connects (events (main scripted n w0)) = 1%nat).
Proof.
  apply (recovery_is_reset_only scripted v_1000 w_broker_down
           "spruce.moisture" (PyFloat 50) broker_error).
  in_trace.
Defined.

Lemma first_poll_after_startup_witness :
  v_boot = Vars (0.5 - 60)%float plant_measurements_init
  ∧ (60 <=? 0.75 - last_updated v_boot)%float = true
  ∧ runs_cycle (tl (events (loop_body scripted v_boot w_first_poll)))
  ∧ ((∀ ev, In ev (tl (events (loop_body scripted v_boot w_first_poll))) →
            raised ev = None) →
     (∀ r, In (MoistureRead (Ok r))
              (tl (events (loop_body scripted v_boot w_first_poll))) →
           Z.abs r < 2 ^ 53) →
     ∃ l r c t',
       tl (events (loop_body scripted v_boot w_first_poll)) = full_cycle l r c t'
       ∧ res (loop_body scripted v_boot w_first_poll)
         = Ok (Vars t' (measured plant_measurements_init l r c))).
Proof.
  apply (first_poll_after_startup scripted (w_boot 0.5 0.75) v_boot 0.5
           (removelast (events (startup scripted (w_boot 0.5 0.75))))
           w_first_poll 0.75);
    vm_compute; reflexivity.
Defined.

(** ** The further properties on the scenarios *)

Lemma startup_error_is_fatal_witness :
  res (main no_wifi 3 w_all_sent) = Error transport_error
  ∧ events (main no_wifi 3 w_all_sent) = events (startup no_wifi w_all_sent)
  ∧ (events (startup no_wifi w_all_sent) = [SetupDevices (Error transport_error)]
     ∨ events (startup no_wifi w_all_sent) =
         [SetupDevices (Ok ()); Print "Connecting to WiFi...";
          WifiConnect (Error transport_error)]
     ∨ events (startup no_wifi w_all_sent) =
         wifi_up ++ [MqttSetSocket (Error transport_error)]
     ∨ (events (startup no_wifi w_all_sent) = wifi_up ++ [MqttSetSocket (Ok ())]
        ∧ ((transport_error = Exn KeyError "aio_username"
            ∧ secrets no_wifi !! "aio_username" = None)
           ∨ (transport_error = Exn KeyError "aio_key"
              ∧ secrets no_wifi !! "aio_key" = None)))
     ∨ (∃ u p, events (startup no_wifi w_all_sent) =
          wifi_up ++ [MqttSetSocket (Ok ()); MqttClient u p (Error transport_error)])
     ∨ (∃ u p, events (startup no_wifi w_all_sent) =
          wifi_up ++ [MqttSetSocket (Ok ()); MqttClient u p (Ok ());
                      IoMqtt (Error transport_error)])
     ∨ (∃ u p, events (startup no_wifi w_all_sent) =
          wifi_up ++ [MqttSetSocket (Ok ()); MqttClient u p (Ok ());
                      IoMqtt (Ok ()); Print "Connecting to Adafruit IO...";
                      IoConnect (Error transport_error)])).
Proof.
  apply (startup_error_is_fatal no_wifi 3 w_all_sent transport_error).
  reflexivity.
Defined.

Lemma exceptions_ending_a_run_witness :
  (∃ evs ev, events (main no_key 1 w_all_sent) = evs ++ [ev]
             ∧ raised ev = Some (Exn KeyError "aio_key"))
  ∨ (exn_cls (Exn KeyError "aio_key") = KeyError
     ∧ clock_reads (events (main no_key 1 w_all_sent)) = 0%nat
     ∧ (secrets no_key !! "aio_username" = None
        ∨ secrets no_key !! "aio_key" = None))
  ∨ (exn_cls (Exn KeyError "aio_key") = OverflowError
     ∧ ∃ evs r, events (main no_key 1 w_all_sent) = evs ++ [MoistureRead (Ok r)]
                ∧ 2 ^ 53 ≤ Z.abs r).
Proof.
  apply (exceptions_ending_a_run no_key 1 w_all_sent).
  vm_compute. reflexivity.
Defined.

Lemma measurements_stay_three_floats_witness :
  three_floats (measured plant_measurements_init 500 1000 22)
  ∧ ∀ key, key ∈ measurement_keys →
      ∃ f, py_getitem (measured plant_measurements_init 500 1000 22) key
           = Ok (PyFloat f).
Proof.
  apply (measurements_stay_three_floats scripted 1 (w_boot 0.5 0.5)
           (Vars 0.5 (measured plant_measurements_init 500 1000 22))).
  vm_compute. reflexivity.
Defined.

Lemma published_is_stored_witness :
  ("sun" = "sun"
   ∧ measured plant_measurements_init 500 1000 22 !! "sunlight"
     = Some (sun_of 500))
  ∨ ("sun" = "spruce.moisture"
     ∧ measured plant_measurements_init 500 1000 22 !! "moisture"
       = Some (sun_of 500))
  ∨ ("sun" = "spruce.temperature"
     ∧ measured plant_measurements_init 500 1000 22 !! "temperature"
       = Some (sun_of 500)).
Proof.
  apply (published_is_stored scripted v_1000 w_all_sent
           (Vars 1063 (measured plant_measurements_init 500 1000 22))
           "sun" (sun_of 500) (Ok ())).
  - vm_compute. reflexivity.
  - in_trace.
Defined.

Lemma reset_error_is_fatal_witness :
  res (loop_body scripted v_1000 w_reset_fails) = Error transport_error
  ∧ resets (events (loop_body scripted v_1000 w_reset_fails)) = 1%nat
  ∧ clock_reads (events (loop_body scripted v_1000 w_reset_fails)) = 1%nat
  ∧ ∀ n, res (run_loop scripted (S n) v_1000 w_reset_fails) = Error transport_error
         ∧ events (run_loop scripted (S n) v_1000 w_reset_fails)
           = events (loop_body scripted v_1000 w_reset_fails).
Proof.
  apply (reset_error_is_fatal scripted v_1000 w_reset_fails transport_error).
  in_trace.
Defined.

Lemma poll_at_recorded_time_is_idle_witness :
  ([] : list event) = [] ∧ res (loop_body scripted v_1000 w_same_tick) = Ok v_1000.
Proof.
  apply (poll_at_recorded_time_is_idle scripted v_1000 w_same_tick 1000 []).
  - vm_compute. reflexivity.
  - reflexivity.
Defined.

Lemma first_poll_runs_at_once_witness :
  ∃ r evs,
    tl (events (loop_body scripted (Vars (0.5 - 60) plant_measurements_init)
                  (world (startup scripted (w_boot 0.5 0.75)))))
    = Print msg_taking :: Lux r :: evs.
Proof.
  apply (first_poll_runs_at_once scripted (w_boot 0.5 0.75)
           (Vars (0.5 - 60) plant_measurements_init) 0.5
           (removelast (events (startup scripted (w_boot 0.5 0.75))))
           (world (startup scripted (w_boot 0.5 0.75))) 0.75);
    vm_compute; reflexivity.
Defined.

Lemma failed_cycle_is_retried_witness :
  last_updated (Vars 1000 (measured plant_measurements_init 500 1000 22))
  = last_updated v_1000
  ∧ ∃ r evs,
      tl (events (loop_body scripted
                    (Vars 1000 (measured plant_measurements_init 500 1000 22))
                    w_retry))
      = Print msg_taking :: Lux r :: evs.
Proof.
  apply (failed_cycle_is_retried scripted v_1000 w_moisture_unsent
           (Vars 1000 (measured plant_measurements_init 500 1000 22))
           "spruce.moisture" (PyFloat 50) transport_error 1060
           (tl (events (loop_body scripted v_1000 w_moisture_unsent)))
           w_retry 1061).
  - in_trace.
  - vm_compute. reflexivity.
  - vm_compute. reflexivity.
  - vm_compute. reflexivity.
  - reflexivity.
Defined.

Lemma interval_test_in_exact_arithmetic_witness :
  tl (events (loop_body scripted v_1000 w_all_sent)) ≠ []
  ↔ due_units ≤ SF2Z (Prim2SF 1060) - SF2Z (Prim2SF (last_updated v_1000)).
Proof.
  apply (interval_test_in_exact_arithmetic scripted v_1000 w_all_sent 1060).
  - vm_compute. reflexivity.
  - reflexivity.
  - reflexivity.
Defined.

Lemma moisture_scale_on_sensor_range_witness :
  ∃ x1 x2,
    moisture_to_scale (PyInt 200) = Ok (PyFloat x1)
    ∧ moisture_to_scale (PyInt 2000) = Ok (PyFloat x2)
    ∧ (10 <=? x1)%float = true
    ∧ (x1 <? x2)%float = true
    ∧ (x2 <=? 100)%float = true.
Proof.
  apply (moisture_scale_on_sensor_range 200 2000); lia.
Defined.

Lemma converters_reject_non_numbers_witness :
  ∃ m1 m2 m3,
    cel_to_fahr PyNone = Error (Exn TypeError m1)
    ∧ lux_to_footcandle PyNone = Error (Exn TypeError m2)
    ∧ moisture_to_scale PyNone = Error (Exn TypeError m3).
Proof.
  apply (converters_reject_non_numbers PyNone). reflexivity.
Defined.
